(** * oggreader: the Ogg page reader of pkg/media/oggreader/oggreader.go

    A shallow embedding of the package: [NewWith], [readHeaders],
    [ParseNextPage] and [ResetReader], over an abstract [io.ReadSeeker]
    (a type class) and over the in-memory byte source [bytesReader]
    (the behaviour of Go's [bytes.Reader]).

    Go values are modelled as follows.
    - [byte] is the Standard Library's 256-constructor [byte]; [u8] is its
      value as an unsigned integer.
    - [[]byte] is [list byte]; [make n] is the zero-filled slice of length
      (and capacity) [n]; an index or a slice expression out of range
      panics.
    - [uint8], [uint16], [uint32], [uint64] and [int64] are [Z]; every
      value built here is an or of shifted bytes and stays in range.
    - a method with receiver [*OggReader] is a function from the reader's
      state to an outcome and the reader's state afterwards. *)

From Stdlib Require Import Strings.String.
From Stdlib Require Strings.Byte.
From Stdlib Require Import ZArith List Lia Bool.
Import ListNotations.

#[local] Open Scope Z_scope.

(** ** Bytes and byte slices *)

Abbreviation byte := Init.Byte.byte.

Definition u8 (b : byte) : Z := Z.of_N (Byte.to_N b).

Definition bytes : Type := list byte.

(** [make([]byte, n)]: [n] zero bytes. *)
Definition make (n : nat) : bytes := repeat Init.Byte.x00 n.

(** What a buffer [buf] holds after a read has stored [data] at its start:
    the bytes read, then the untouched rest of the buffer. *)
Definition copyInto (buf data : bytes) : bytes :=
  firstn (length buf) (data ++ skipn (length data) buf).

(** [b[k]]; [None] is the run-time panic of an index out of range. *)
Definition byteAt (b : bytes) (k : nat) : option byte := nth_error b k.

(** [b[lo:hi]] for a slice whose capacity is its length (every slice here
    comes from [make]); [None] is the panic "slice bounds out of range". *)
Definition slice (b : bytes) (lo hi : nat) : option bytes :=
  if ((lo <=? hi)%nat && (hi <=? length b)%nat)%bool
  then Some (firstn (hi - lo) (skipn lo b))
  else None.

Fixpoint bytes_eqb (a b : bytes) : bool :=
  match a, b with
  | [], [] => true
  | x :: a', y :: b' => Byte.eqb x y && bytes_eqb a' b'
  | _, _ => false
  end.

(** [bytes.HasPrefix] and [bytes.Contains]. *)
Fixpoint HasPrefix (s prefix : bytes) : bool :=
  match prefix, s with
  | [], _ => true
  | p :: prefix', x :: s' => Byte.eqb x p && HasPrefix s' prefix'
  | _ :: _, [] => false
  end.

Fixpoint Contains (b subslice : bytes) : bool :=
  HasPrefix b subslice ||
  match b with
  | [] => false
  | _ :: b' => Contains b' subslice
  end.

(** [binary.LittleEndian]: each function first touches its last byte, so
    a short slice panics. *)
Module LittleEndian.

Definition Uint16 (b : bytes) : option Z :=
  match b with
  | b0 :: b1 :: _ => Some (Z.lor (u8 b0) (Z.shiftl (u8 b1) 8))
  | _ => None
  end.

Definition Uint32 (b : bytes) : option Z :=
  match b with
  | b0 :: b1 :: b2 :: b3 :: _ =>
      Some (Z.lor (Z.lor (Z.lor (u8 b0) (Z.shiftl (u8 b1) 8))
                         (Z.shiftl (u8 b2) 16))
                  (Z.shiftl (u8 b3) 24))
  | _ => None
  end.

Definition Uint64 (b : bytes) : option Z :=
  match b with
  | b0 :: b1 :: b2 :: b3 :: b4 :: b5 :: b6 :: b7 :: _ =>
      Some (Z.lor (Z.lor (Z.lor (Z.lor (Z.lor (Z.lor (Z.lor
              (u8 b0)
              (Z.shiftl (u8 b1) 8))
              (Z.shiftl (u8 b2) 16))
              (Z.shiftl (u8 b3) 24))
              (Z.shiftl (u8 b4) 32))
              (Z.shiftl (u8 b5) 40))
              (Z.shiftl (u8 b6) 48))
              (Z.shiftl (u8 b7) 56))
  | _ => None
  end.

End LittleEndian.

(** ** Constants *)

Definition pageHeaderTypeBeginningOfStream : Z := 0x02.
Definition idPageSignature : bytes := Eval cbv in list_byte_of_string "OpusHead".
Definition commentPageSignature : bytes := Eval cbv in list_byte_of_string "OpusTags".
Definition pageHeaderSignature : bytes := Eval cbv in list_byte_of_string "OggS".
Definition pageHeaderLen : nat := 28.

(** ** Errors *)

(** Errors of the byte source: [io.EOF], or any other error value. *)
Inductive ioError : Type :=
| EOF
| SourceError (msg : string).

(** The error values the package returns: those it builds with
    [fmt.Errorf], and those of the source, passed on unchanged. *)
Inductive error : Type :=
| ErrNilStream
| ErrBadHeaderSignature
| ErrWrongHeader
| ErrBadHeaderSize
| ErrWrongSignature (s : bytes)
| ErrHeaderLenMismatch
| ErrStream (e : ioError).

Definition errorMessage (e : error) : string :=
  match e with
  | ErrNilStream => "stream is nil"
  | ErrBadHeaderSignature => "bad header signature"
  | ErrWrongHeader => "wrong header, expected beginning of stream"
  | ErrBadHeaderSize => "bad header size"
  | ErrWrongSignature s => ("wrong signature: " ++ string_of_list_byte s)%string
  | ErrHeaderLenMismatch => "header len mismatch"
  | ErrStream EOF => "EOF"
  | ErrStream (SourceError msg) => msg
  end.

(** ** The byte source: io.ReadSeeker *)

Inductive Whence : Type := SeekStart | SeekCurrent | SeekEnd.

(** [Read st len] is a call of [Read] with a buffer of [len] bytes: the
    bytes stored at the start of the buffer (their number is the [n] that
    [Read] returns), the error, and the source afterwards.
    [Seek st offset whence] returns the new offset, the error and the
    source afterwards. *)
Class ReadSeeker (S : Type) : Type := {
  Read : S -> nat -> bytes * option ioError * S;
  Seek : S -> Z -> Whence -> Z * option ioError * S
}.

(** [bytes.Reader]: a byte slice [s] and the reading index [i]. The index
    is a natural number: [Seek] refuses a negative position, and no other
    operation lowers it. *)
Record bytesReader : Type := mkBytesReader { s : bytes; i : nat }.

Definition NewReader (b : bytes) : bytesReader := mkBytesReader b 0.

Definition bytesReader_Read (r : bytesReader) (len : nat)
  : bytes * option ioError * bytesReader :=
  if (length (s r) <=? i r)%nat then ([], Some EOF, r)
  else
    let data := firstn len (skipn (i r) (s r)) in
    (data, None, mkBytesReader (s r) (i r + length data)).

Definition bytesReader_Seek (r : bytesReader) (offset : Z) (whence : Whence)
  : Z * option ioError * bytesReader :=
  let abs :=
    match whence with
    | SeekStart => offset
    | SeekCurrent => Z.of_nat (i r) + offset
    | SeekEnd => Z.of_nat (length (s r)) + offset
    end in
  if abs <? 0
  then (0, Some (SourceError "bytes.Reader.Seek: negative position"), r)
  else (abs, None, mkBytesReader (s r) (Z.to_nat abs)).

#[export] Instance bytesReader_ReadSeeker : ReadSeeker bytesReader := {
  Read := bytesReader_Read;
  Seek := bytesReader_Seek
}.

(** ** Outcomes and the reader's state *)

(** How a call ends: it returns a value, returns an error, panics, or (for
    the loop of [readHeaders], which is run with fuel) has not ended when
    the fuel ran out. *)
Inductive Res (A : Type) : Type :=
| Val (a : A)
| Error (e : error)
| Panic
| OutOfFuel.

Arguments Val {A} a.
Arguments Error {A} e.
Arguments Panic {A}.
Arguments OutOfFuel {A}.

Record OggHeader : Type := {
  ChannelMap : Z;
  Channels : Z;
  OutputGain : Z;
  PreSkip : Z;
  SampleRate : Z;
  Version : Z
}.

Record OggPageHeader : Type := {
  sig : bytes;
  version : Z;
  headerType : Z;
  granulePos : Z;
  serial : Z;
  index : Z;
  segmentsCount : Z;
  checksum : Z
}.

Definition set_checksum (p : OggPageHeader) (c : Z) : OggPageHeader :=
  {| sig := sig p; version := version p; headerType := headerType p;
     granulePos := granulePos p; serial := serial p; index := index p;
     segmentsCount := segmentsCount p; checksum := c |}.

Section Reader.

Context {Src : Type} `{ReadSeeker Src}.

(** [stream] is [None] for a nil interface value. *)
Record OggReader : Type := {
  stream : option Src;
  bytesReadSuccesfully : Z
}.

Definition set_stream (o : OggReader) (st : option Src) : OggReader :=
  {| stream := st; bytesReadSuccesfully := bytesReadSuccesfully o |}.

(** A method of [*OggReader]. *)
Definition M (A : Type) : Type := OggReader -> Res A * OggReader.

Definition ret {A} (a : A) : M A := fun o => (Val a, o).
Definition raise {A} (e : error) : M A := fun o => (Error e, o).
Definition panic {A} : M A := fun o => (Panic, o).

Definition bind {A B} (m : M A) (k : A -> M B) : M B :=
  fun o =>
    match m o with
    | (Val a, o') => k a o'
    | (Error e, o') => (Error e, o')
    | (Panic, o') => (Panic, o')
    | (OutOfFuel, o') => (OutOfFuel, o')
    end.

(** An operation that panics where the option is [None]. *)
Definition must {A} (x : option A) : M A :=
  match x with
  | Some a => ret a
  | None => panic
  end.

(** [o.stream.Read(buf)] with [len(buf) = len]; a call on a nil
    interface panics. *)
Definition streamRead (len : nat) : M (bytes * option ioError) :=
  fun o =>
    match stream o with
    | None => (Panic, o)
    | Some st =>
        let '(data, err, st') := Read st len in
        (Val (data, err), set_stream o (Some st'))
    end.

(** [o.stream.Seek(offset, whence)]. *)
Definition streamSeek (offset : Z) (whence : Whence)
  : M (Z * option ioError) :=
  fun o =>
    match stream o with
    | None => (Panic, o)
    | Some st =>
        let '(pos, err, st') := Seek st offset whence in
        (Val (pos, err), set_stream o (Some st'))
    end.

End Reader.

Arguments OggReader Src : clear implicits.
Arguments M Src A : clear implicits.

Declare Scope ogg_scope.
Delimit Scope ogg_scope with ogg.

Notation "x <- m ;; k" := (bind m (fun x => k))
  (at level 61, m at next level, right associativity) : ogg_scope.
Notation "' p <- m ;; k" := (bind m (fun p => k))
  (at level 61, p pattern, m at next level, right associativity) : ogg_scope.

#[local] Open Scope ogg_scope.

Section Package.

Context {Src : Type} `{ReadSeeker Src}.

(** ** ParseNextPage *)

Definition ParseNextPage : M Src (bytes * OggPageHeader) :=
  let h0 := make pageHeaderLen in
  '(data, err) <- streamRead (length h0) ;;
  let h := copyInto h0 data in
  let n := length data in
  match err with
  | Some e => raise (ErrStream e)
  | None =>
      if (n <? length h)%nat then raise ErrHeaderLenMismatch
      else
        h_0 <- must (byteAt h 0) ;;
        h_1 <- must (byteAt h 1) ;;
        h_2 <- must (byteAt h 2) ;;
        h_3 <- must (byteAt h 3) ;;
        h_4 <- must (byteAt h 4) ;;
        h_5 <- must (byteAt h 5) ;;
        h_6_14 <- must (slice h 6 (6 + 8)) ;;
        granulePos_ <- must (LittleEndian.Uint64 h_6_14) ;;
        h_14_18 <- must (slice h 14 (14 + 4)) ;;
        serial_ <- must (LittleEndian.Uint32 h_14_18) ;;
        h_18_22 <- must (slice h 18 (18 + 4)) ;;
        index_ <- must (LittleEndian.Uint32 h_18_22) ;;
        h_26 <- must (byteAt h 26) ;;
        let pageHeader :=
          {| sig := [h_0; h_1; h_2; h_3];
             version := u8 h_4;
             headerType := u8 h_5;
             granulePos := granulePos_;
             serial := serial_;
             index := index_;
             segmentsCount := u8 h_26;
             checksum := 0 |} in
        payloadSize <- must (byteAt h 27) ;;
        if 0 <? u8 payloadSize then
          let payload := make (Z.to_nat (u8 payloadSize)) in
          '(data', err') <- streamRead (length payload) ;;
          let payload := copyInto payload data' in
          match err' with
          | Some e => raise (ErrStream e)
          | None =>
              h_22_26 <- must (slice h 22 (22 + 4)) ;;
              checksum_ <- must (LittleEndian.Uint32 h_22_26) ;;
              ret (payload, set_checksum pageHeader checksum_)
          end
        else ret ([], pageHeader)
  end.

(** ** readHeaders *)

(** The loop of [readHeaders] that reads and skips the comment pages,
    run for at most [fuel] iterations. *)
Fixpoint skipCommentPages (fuel : nat) : M Src unit :=
  match fuel with
  | O => fun o => (OutOfFuel, o)
  | S fuel' =>
      '(commentPayload, _) <- ParseNextPage ;;
      if negb (Contains commentPayload commentPageSignature) then
        '(_, err) <- streamSeek
           (-1 * Z.of_nat (pageHeaderLen + length commentPayload))
           SeekCurrent ;;
        match err with
        | Some e => raise (ErrStream e)
        | None => ret tt
        end
      else skipCommentPages fuel'
  end.

Definition readHeaders (fuel : nat) : M Src OggHeader :=
  '(payload, pageHeader) <- ParseNextPage ;;
  if negb (bytes_eqb (sig pageHeader) pageHeaderSignature)
  then raise ErrBadHeaderSignature
  else if negb (headerType pageHeader =? pageHeaderTypeBeginningOfStream)
  then raise ErrWrongHeader
  else if (length payload =? 0)%nat
  then raise ErrBadHeaderSize
  else
    sig_ <- must (slice payload 0 8) ;;
    if negb (bytes_eqb sig_ idPageSignature)
    then raise (ErrWrongSignature sig_)
    else
      Version_ <- must (byteAt payload 8) ;;
      Channels_ <- must (byteAt payload 9) ;;
      payload_10_12 <- must (slice payload 10 12) ;;
      PreSkip_ <- must (LittleEndian.Uint16 payload_10_12) ;;
      payload_12_16 <- must (slice payload 12 16) ;;
      SampleRate_ <- must (LittleEndian.Uint32 payload_12_16) ;;
      payload_16_18 <- must (slice payload 16 18) ;;
      OutputGain_ <- must (LittleEndian.Uint16 payload_16_18) ;;
      ChannelMap_ <- must (byteAt payload 18) ;;
      let header :=
        {| ChannelMap := u8 ChannelMap_;
           Channels := u8 Channels_;
           OutputGain := OutputGain_;
           PreSkip := PreSkip_;
           SampleRate := SampleRate_;
           Version := u8 Version_ |} in
      _ <- skipCommentPages fuel ;;
      ret header.

(** ** NewWith *)

(** How [NewWith] ends: with the three values it returns, with a panic,
    or without an end within the fuel. *)
Inductive NewWithResult : Type :=
| Returns (reader : option (OggReader Src)) (header : option OggHeader)
          (err : option error)
| Panics
| Diverges.

Definition NewWith (in_ : option Src) (fuel : nat) : NewWithResult :=
  match in_ with
  | None => Returns None None (Some ErrNilStream)
  | Some _ =>
      let reader := {| stream := in_; bytesReadSuccesfully := 0 |} in
      match readHeaders fuel reader with
      | (Val header, reader') => Returns (Some reader') (Some header) None
      | (Error err, _) => Returns None None (Some err)
      | (Panic, _) => Panics
      | (OutOfFuel, _) => Diverges
      end
  end.

(** ** ResetReader *)

Definition ResetReader (reset : Z -> option Src) : M Src unit :=
  fun o => (Val tt, set_stream o (reset (bytesReadSuccesfully o))).

End Package.

(** ** The layout tables, as the specification gives them *)

(** The value of a byte sequence read as a little-endian number: the
    first byte is the least significant. *)
Definition le_value (bs : bytes) : Z :=
  fold_right (fun b acc => u8 b + 256 * acc) 0 bs.

(** The byte of value [z mod 256]. *)
Definition byte_of_Z (z : Z) : byte :=
  match Byte.of_N (Z.to_N (z mod 256)) with
  | Some b => b
  | None => Init.Byte.x00
  end.

(** The [n]-byte little-endian encoding of [v]. *)
Fixpoint le_bytes (n : nat) (v : Z) : bytes :=
  match n with
  | O => []
  | S n' => byte_of_Z v :: le_bytes n' (v / 256)
  end.

(** The 28-byte page header [h] read by the layout table: signature at
    bytes 0-3, version at 4, header type at 5, granule position at 6-13,
    serial number at 14-17, page sequence index at 18-21, segments count
    at 26; the checksum field is not set here. *)
Definition pageHeaderAt (h : bytes) : OggPageHeader :=
  {| sig := firstn 4 h;
     version := u8 (nth 4 h Init.Byte.x00);
     headerType := u8 (nth 5 h Init.Byte.x00);
     granulePos := le_value (firstn 8 (skipn 6 h));
     serial := le_value (firstn 4 (skipn 14 h));
     index := le_value (firstn 4 (skipn 18 h));
     segmentsCount := u8 (nth 26 h Init.Byte.x00);
     checksum := 0 |}.

(** The checksum at bytes 22-25 and the payload size at byte 27. *)
Definition checksumAt (h : bytes) : Z := le_value (firstn 4 (skipn 22 h)).
Definition payloadSizeAt (h : bytes) : nat :=
  Z.to_nat (u8 (nth 27 h Init.Byte.x00)).

(** The identification header read by its layout: version at byte 8,
    channel count at 9, pre-skip at 10-11, sample rate at 12-15, output
    gain at 16-17, channel mapping family at 18. *)
Definition oggHeaderAt (payload : bytes) : OggHeader :=
  {| ChannelMap := u8 (nth 18 payload Init.Byte.x00);
     Channels := u8 (nth 9 payload Init.Byte.x00);
     OutputGain := le_value (firstn 2 (skipn 16 payload));
     PreSkip := le_value (firstn 2 (skipn 10 payload));
     SampleRate := le_value (firstn 4 (skipn 12 payload));
     Version := u8 (nth 8 payload Init.Byte.x00) |}.

Section Layout.

Context {Src : Type} `{ReadSeeker Src}.

(** [ParseNextPage] with its reads and its decoding written out against
    the layout table; [ParseNextPage_parsePage] proves the two equal. *)
Definition parsePage (o : OggReader Src)
  : Res (bytes * OggPageHeader) * OggReader Src :=
  match stream o with
  | None => (Panic, o)
  | Some st =>
      let '(data, err, st1) := Read st 28 in
      let o1 := set_stream o (Some st1) in
      match err with
      | Some e => (Error (ErrStream e), o1)
      | None =>
          if (length data <? 28)%nat then (Error ErrHeaderLenMismatch, o1)
          else
            let h := firstn 28 data in
            if (0 <? payloadSizeAt h)%nat then
              let '(data', err', st2) := Read st1 (payloadSizeAt h) in
              let o2 := set_stream o (Some st2) in
              match err' with
              | Some e => (Error (ErrStream e), o2)
              | None =>
                  (Val (copyInto (make (payloadSizeAt h)) data',
                        set_checksum (pageHeaderAt h) (checksumAt h)), o2)
              end
            else (Val ([], pageHeaderAt h), o1)
      end
  end.

(** The readers a client of the package can hold: the zero value, a
    reader returned by [NewWith], and what the package's methods make of
    them, whatever their outcome. *)
Inductive reachable : OggReader Src -> Prop :=
| reach_zero :
    reachable {| stream := None; bytesReadSuccesfully := 0 |}
| reach_NewWith in_ fuel reader header err :
    NewWith in_ fuel = Returns (Some reader) header err ->
    reachable reader
| reach_ParseNextPage o :
    reachable o -> reachable (snd (ParseNextPage o))
| reach_readHeaders o fuel :
    reachable o -> reachable (snd (readHeaders fuel o))
| reach_ResetReader o reset :
    reachable o -> reachable (snd (ResetReader reset o)).

End Layout.

(** A method that leaves the bytes-consumed counter as it found it. *)
Definition keeps_counter {Src A} (m : M Src A) : Prop :=
  forall o, bytesReadSuccesfully (snd (m o)) = bytesReadSuccesfully o.

(** A method that never returns the error [e]. *)
Definition never_fails_with {Src A} (e : error) (m : M Src A) : Prop :=
  forall o, fst (m o) <> Error e.

(** A method run with fuel has come to its end at [fuel]: it did not run
    out of fuel, and more fuel changes nothing. *)
Definition settled {Src A} (m : nat -> M Src A) (fuel : nat)
  (o : OggReader Src) : Prop :=
  fst (m fuel o) <> OutOfFuel /\
  forall fuel', (fuel <= fuel')%nat -> m fuel' o = m fuel o.

(** The bytes the source of a reader still holds, counted by a measure
    [left] of the source; a nil source holds none. *)
Definition remainingBy {Src} (left : Src -> nat) (o : OggReader Src) : nat :=
  match stream o with
  | Some st => left st
  | None => 0%nat
  end.

(** The bytes a [bytes.Reader] has not yet delivered ([Len]), and those
    the source of a reader has not. *)
Definition Len (r : bytesReader) : nat := length (s r) - i r.

Definition remaining (o : OggReader bytesReader) : nat := remainingBy Len o.

(** The header bytes and the payload bytes of the page that starts at the
    reading index of [r], as far as the source holds them. *)
Definition headerBytesAt (r : bytesReader) : bytes :=
  firstn 28 (skipn (i r) (s r)).

Definition payloadBytesAt (r : bytesReader) : bytes :=
  firstn (payloadSizeAt (headerBytesAt r)) (skipn (i r + 28) (s r)).

(** The source holds the whole page at the reading index: 28 header
    bytes and as many payload bytes as the header declares. *)
Definition completePageAt (r : bytesReader) : Prop :=
  (i r + 28 + payloadSizeAt (headerBytesAt r) <= length (s r))%nat.

(** ** Streams used as concrete inputs *)

Module Vectors.

Import Init.Byte.

(** A page as it lies in a stream: the 28 header bytes, with the header
    type [ht], the checksum bytes [crc] and the payload size [size], then
    the bytes [body]. *)
Definition page (ht : byte) (crc : bytes) (size : byte) (body : bytes)
  : bytes :=
  pageHeaderSignature ++ [x00; ht] ++ make 16 ++ crc ++ [x01; size] ++ body.

Definition crc0 : bytes := [x11; x22; x33; x44].

(** An identification payload: version 1, 2 channels, pre-skip 312,
    sample rate 48000, output gain 0, mapping family 0. *)
Definition idPayload : bytes :=
  idPageSignature ++
  [x01; x02; x38; x01; x80; xbb; x00; x00; x00; x00; x00].

Definition idPage (ht : byte) : bytes := page ht crc0 x13 idPayload.

Definition commentPage : bytes := page x00 crc0 x08 commentPageSignature.

Definition audioPage : bytes := page x00 crc0 x03 [x0a; x0b; x0c].

(** A well-formed stream: identification page, comment page, audio. *)
Definition goodStream : bytesReader :=
  NewReader (idPage x02 ++ commentPage ++ audioPage).

(** The first page carries the header type 0x03: the beginning-of-stream
    bit and the continuation bit. *)
Definition type03Stream : bytesReader :=
  NewReader (idPage x03 ++ commentPage ++ audioPage).

(** The first page has a one-byte payload. *)
Definition shortIdStream : bytesReader :=
  NewReader (page x02 crc0 x01 [x4f]).

(** A page that declares 4 payload bytes, of which the stream holds 1. *)
Definition truncatedPage : bytes := page x00 crc0 x04 [x0a].

Definition truncatedStream : bytesReader := NewReader truncatedPage.

(** An identification page followed by the truncated page. *)
Definition truncatedSecondStream : bytesReader :=
  NewReader (idPage x02 ++ truncatedPage).


Definition readerOf (r : bytesReader) : OggReader bytesReader :=
  {| stream := Some r; bytesReadSuccesfully := 0 |}.

End Vectors.

(** ** Pages as they lie in a stream *)

(** [h] is the fixed header of a page whose payload is [payload]: 28
    bytes, the last of which is the payload's length. *)
Definition frames (h payload : bytes) : Prop :=
  length h = 28%nat /\ payloadSizeAt h = length payload.

(** The bytes of a page given as header and payload. *)
Definition pageBytes (p : bytes * bytes) : bytes := fst p ++ snd p.

(** The page header that the header bytes [h] stand for: the fields of
    the layout table, with the checksum only where a payload follows. *)
Definition headerOf (h : bytes) : OggPageHeader :=
  if (0 <? payloadSizeAt h)%nat
  then set_checksum (pageHeaderAt h) (checksumAt h)
  else pageHeaderAt h.

(** The page, as [ParseNextPage] returns it, of a header and a payload. *)
Definition pageOf (p : bytes * bytes) : bytes * OggPageHeader :=
  (snd p, headerOf (fst p)).

(** A comment page: framed, with "OpusTags" somewhere in its payload. *)
Definition commentPageLike (p : bytes * bytes) : Prop :=
  frames (fst p) (snd p) /\ Contains (snd p) commentPageSignature = true.

Section Callers.

Context {Src : Type} `{ReadSeeker Src}.

(** A caller that reads [n] pages one after the other and stops at the
    first that fails. *)
Fixpoint ParseNextPages (n : nat) : M Src (list (bytes * OggPageHeader)) :=
  match n with
  | O => ret []
  | S n' =>
      page <- ParseNextPage ;;
      pages <- ParseNextPages n' ;;
      ret (page :: pages)
  end.

End Callers.

Module Streams.

Import Init.Byte.
Import Vectors.

Definition header (ht : byte) (size : byte) : bytes :=
  pageHeaderSignature ++ [x00; ht] ++ make 16 ++ crc0 ++ [x01; size].

(** A comment page whose payload has "OpusTags" after two other bytes. *)
Definition lateTagsPayload : bytes := [x01; x02] ++ commentPageSignature ++ [x03].

Definition audio1 : bytes := [x0a; x0b; x0c].
Definition audio2 : bytes := [x0d; x0e].

(** Identification page, two comment pages, two audio pages. *)
Definition fullStream : bytes :=
  header x02 x13 ++ idPayload ++
  concat (map pageBytes [(header x00 x08, commentPageSignature);
                         (header x00 x0b, lateTagsPayload)]) ++
  header x00 x03 ++ audio1 ++ (header x00 x02 ++ audio2).

(** Identification page and one comment page, nothing after them. *)
Definition headersOnlyStream : bytes :=
  header x02 x13 ++ idPayload ++
  concat (map pageBytes [(header x00 x08, commentPageSignature)]).

(** A first page with a bad capture pattern. *)
Definition badSignatureStream : bytesReader :=
  NewReader ([x4f; x67; x67; x00] ++ [x00; x02] ++ make 16 ++ crc0
             ++ [x01; x13] ++ idPayload).

(** A first page without payload. *)
Definition emptyIdStream : bytesReader := NewReader (header x02 x00).

(** A first page whose payload is "OpusHead" and nothing more. *)
Definition bareIdStream : bytesReader :=
  NewReader (header x02 x08 ++ idPageSignature).

(** A first page whose 8-byte payload is not "OpusHead". *)
Definition wrongIdStream : bytesReader :=
  NewReader (header x02 x08 ++ commentPageSignature).

(** 10 bytes: less than a page header. *)
Definition stubStream : bytesReader := NewReader (make 10).

(** A page header that declares 4 payload bytes, and nothing after it. *)
Definition headerOnlyStream : bytesReader := NewReader (header x00 x04).

End Streams.
(** * Properties *)

(** ** Bytes and little-endian values *)

Lemma u8_range (b : byte) : 0 <= u8 b < 256.
Proof.
  unfold u8. pose proof (Byte.to_N_bounded b) as Hb. lia.
Qed.

Lemma le_value_range (bs : bytes) : 0 <= le_value bs < 256 ^ Z.of_nat (length bs).
Proof.
  induction bs as [|b bs IH].
  - simpl. lia.
  - change (le_value (b :: bs)) with (u8 b + 256 * le_value bs).
    change (length (b :: bs)) with (S (length bs)).
    rewrite Nat2Z.inj_succ, Z.pow_succ_r by lia.
    pose proof (u8_range b). nia.
Qed.

(** An or with a value shifted past every bit of the other operand is a
    sum. *)
Lemma lor_shiftl_add (a b k : Z) :
  0 <= k -> 0 <= a < 2 ^ k -> Z.lor a (Z.shiftl b k) = a + b * 2 ^ k.
Proof.
  intros Hk Ha.
  assert (Hdisj : Z.land a (Z.shiftl b k) = 0).
  { apply Z.bits_inj'. intros n Hn.
    rewrite Z.land_spec, Z.bits_0.
    destruct (Z.lt_ge_cases n k) as [Hlt | Hge].
    - rewrite (Z.shiftl_spec_low b k n Hlt). apply andb_false_r.
    - replace a with (a mod 2 ^ k) by (apply Z.mod_small; exact Ha).
      rewrite Z.mod_pow2_bits_high by lia. reflexivity. }
  rewrite <- (Z.lxor_lor _ _ Hdisj), <- (Z.add_nocarry_lxor _ _ Hdisj).
  rewrite Z.shiftl_mul_pow2 by exact Hk. reflexivity.
Qed.

(** [lia] once the powers of two with literal exponents are numerals. *)
Ltac pow_lia :=
  repeat match goal with
         | |- context [2 ^ Zpos ?k] =>
             let v := eval cbv in (2 ^ Zpos k) in
             change (2 ^ Zpos k) with v
         end;
  lia.

Lemma Uint16_le_value (b0 b1 : byte) (rest : bytes) :
  LittleEndian.Uint16 (b0 :: b1 :: rest) = Some (le_value [b0; b1]).
Proof.
  pose proof (u8_range b0). pose proof (u8_range b1).
  unfold LittleEndian.Uint16, le_value; cbn [fold_right].
  rewrite lor_shiftl_add by pow_lia. f_equal. pow_lia.
Qed.

Lemma Uint32_le_value (b0 b1 b2 b3 : byte) (rest : bytes) :
  LittleEndian.Uint32 (b0 :: b1 :: b2 :: b3 :: rest)
  = Some (le_value [b0; b1; b2; b3]).
Proof.
  pose proof (u8_range b0). pose proof (u8_range b1).
  pose proof (u8_range b2). pose proof (u8_range b3).
  unfold LittleEndian.Uint32, le_value; cbn [fold_right].
  rewrite (lor_shiftl_add (u8 b0)) by pow_lia.
  rewrite (lor_shiftl_add (u8 b0 + _)) by pow_lia.
  rewrite (lor_shiftl_add (u8 b0 + _ + _)) by pow_lia.
  f_equal. pow_lia.
Qed.

Lemma Uint64_le_value (b0 b1 b2 b3 b4 b5 b6 b7 : byte) (rest : bytes) :
  LittleEndian.Uint64 (b0 :: b1 :: b2 :: b3 :: b4 :: b5 :: b6 :: b7 :: rest)
  = Some (le_value [b0; b1; b2; b3; b4; b5; b6; b7]).
Proof.
  pose proof (u8_range b0). pose proof (u8_range b1).
  pose proof (u8_range b2). pose proof (u8_range b3).
  pose proof (u8_range b4). pose proof (u8_range b5).
  pose proof (u8_range b6). pose proof (u8_range b7).
  unfold LittleEndian.Uint64, le_value; cbn [fold_right].
  rewrite (lor_shiftl_add (u8 b0)) by pow_lia.
  rewrite (lor_shiftl_add (u8 b0 + _)) by pow_lia.
  rewrite (lor_shiftl_add (u8 b0 + _ + _)) by pow_lia.
  rewrite (lor_shiftl_add (u8 b0 + _ + _ + _)) by pow_lia.
  rewrite (lor_shiftl_add (u8 b0 + _ + _ + _ + _)) by pow_lia.
  rewrite (lor_shiftl_add (u8 b0 + _ + _ + _ + _ + _)) by pow_lia.
  rewrite (lor_shiftl_add (u8 b0 + _ + _ + _ + _ + _ + _)) by pow_lia.
  f_equal. pow_lia.
Qed.

Lemma bytes_eqb_eq (a b : bytes) : bytes_eqb a b = true <-> a = b.
Proof.
  revert b. induction a as [|x a IH]; intros [|y b]; simpl;
    try (split; [discriminate | discriminate]); try tauto.
  rewrite andb_true_iff, IH. split.
  - intros [Hxy ->]. apply Byte.byte_dec_bl in Hxy. now subst.
  - intros [= -> ->]. split; [now apply Byte.byte_dec_lb | reflexivity].
Qed.

Lemma length_make (n : nat) : length (make n) = n.
Proof. apply repeat_length. Qed.

Lemma length_copyInto (buf data : bytes) :
  length (copyInto buf data) = length buf.
Proof.
  unfold copyInto. rewrite length_firstn, length_app, length_skipn. lia.
Qed.

(** A read that fills the buffer leaves exactly the bytes read in it. *)
Lemma copyInto_full (buf data : bytes) :
  (length buf <= length data)%nat -> copyInto buf data = firstn (length buf) data.
Proof.
  intros Hlen. unfold copyInto.
  rewrite skipn_all2 by exact Hlen. now rewrite app_nil_r.
Qed.

Lemma skipn_make (k n : nat) : skipn k (make n) = make (n - k).
Proof.
  unfold make. revert k. induction n as [|n IH]; intros [|k]; simpl; auto.
Qed.

(** A short read leaves the rest of a fresh buffer zero. *)
Lemma copyInto_short (n : nat) (data : bytes) :
  (length data <= n)%nat ->
  copyInto (make n) data = data ++ make (n - length data).
Proof.
  intros Hlen. unfold copyInto.
  rewrite length_make, skipn_make.
  apply firstn_all2. rewrite length_app, length_make. lia.
Qed.

(** ** ParseNextPage, read against the layout table *)

Lemma bind_ret {Src A B} (a : A) (k : A -> M Src B) : bind (ret a) k = k a.
Proof. reflexivity. Qed.

(** Destructs a list of known length into its elements. *)
Ltac explode_list h Hlen :=
  repeat (destruct h as [|? h]; [discriminate Hlen|]);
  destruct h; [clear Hlen | discriminate Hlen].

Section ParseNextPageLayout.

Context {Src : Type} `{ReadSeeker Src}.

Lemma ParseNextPage_parsePage (o : OggReader Src) :
  ParseNextPage o = parsePage o.
Proof.
  unfold ParseNextPage, parsePage, bind at 1, streamRead at 1.
  rewrite length_make. change pageHeaderLen with 28%nat.
  destruct (stream o) as [st|]; [|reflexivity].
  destruct (Read st 28) as [[data err] st1].
  destruct err as [e|]; [reflexivity|].
  rewrite length_copyInto, length_make.
  destruct (length data <? 28)%nat eqn:Hn; [reflexivity|].
  apply Nat.ltb_ge in Hn.
  rewrite copyInto_full by (rewrite length_make; exact Hn).
  rewrite length_make.
  assert (Hlen : length (firstn 28 data) = 28%nat)
    by (rewrite length_firstn; lia).
  set (h := firstn 28 data) in *. clearbody h.
  explode_list h Hlen.
  repeat progress
    (cbn [byteAt nth_error slice Nat.leb Nat.add Nat.sub andb length
          firstn skipn must];
     rewrite ?bind_ret, ?Uint64_le_value, ?Uint32_le_value).
  unfold payloadSizeAt, pageHeaderAt, checksumAt.
  cbn [nth firstn skipn].
  match goal with |- context [0 <? u8 ?b] => set (size := u8 b) end.
  destruct (0 <? size) eqn:Hsize.
  - apply Z.ltb_lt in Hsize.
    replace (0 <? Z.to_nat size)%nat with true
      by (symmetry; apply Nat.ltb_lt; lia).
    unfold bind at 1, streamRead at 1. rewrite length_make.
    cbn [stream set_stream].
    destruct (Read st1 (Z.to_nat size)) as [[data' err'] st2].
    destruct err' as [e|]; [reflexivity|].
    cbn [slice Nat.leb Nat.add Nat.sub andb length firstn skipn must].
    rewrite bind_ret, Uint32_le_value. reflexivity.
  - apply Z.ltb_ge in Hsize.
    replace (0 <? Z.to_nat size)%nat with false
      by (symmetry; apply Nat.ltb_ge; lia).
    reflexivity.
Qed.

End ParseNextPageLayout.

(** ** Round trip of the little-endian encoding *)

Lemma u8_byte_of_Z (z : Z) : u8 (byte_of_Z z) = z mod 256.
Proof.
  unfold u8, byte_of_Z.
  pose proof (Z.mod_pos_bound z 256 ltac:(lia)) as Hz.
  destruct (Byte.of_N (Z.to_N (z mod 256))) as [b|] eqn:Hb.
  - apply Byte.to_of_N in Hb. rewrite Hb. lia.
  - apply Byte.of_N_None_iff in Hb. lia.
Qed.

Lemma length_le_bytes (n : nat) (v : Z) : length (le_bytes n v) = n.
Proof.
  revert v. induction n as [|n IH]; intros v; simpl; [reflexivity|].
  now rewrite IH.
Qed.

Lemma le_value_le_bytes (n : nat) (v : Z) :
  le_value (le_bytes n v) = v mod 256 ^ Z.of_nat n.
Proof.
  revert v. induction n as [|n IH]; intros v.
  - simpl. now rewrite Z.mod_1_r.
  - cbn [le_bytes]. unfold le_value. cbn [fold_right].
    fold (le_value (le_bytes n (v / 256))).
    rewrite IH, u8_byte_of_Z, Nat2Z.inj_succ, Z.pow_succ_r by lia.
    rewrite (Z.rem_mul_r v 256 (256 ^ Z.of_nat n)) by lia. reflexivity.
Qed.

(** ** Frame and error properties of the methods *)

Section Frame.

Context {Src : Type} `{ReadSeeker Src}.

Lemma keeps_counter_ret {A} (a : A) : keeps_counter (Src := Src) (ret a).
Proof. intros o. reflexivity. Qed.

Lemma keeps_counter_raise {A} (e : error) :
  keeps_counter (Src := Src) (A := A) (raise e).
Proof. intros o. reflexivity. Qed.

Lemma keeps_counter_panic {A} : keeps_counter (Src := Src) (A := A) panic.
Proof. intros o. reflexivity. Qed.

Lemma keeps_counter_must {A} (x : option A) :
  keeps_counter (Src := Src) (must x).
Proof. destruct x; intros o; reflexivity. Qed.

Lemma keeps_counter_streamRead (len : nat) : keeps_counter (streamRead len).
Proof.
  intros o. unfold streamRead.
  destruct (stream o) as [st|]; [|reflexivity].
  destruct (Read st len) as [[data err] st']. reflexivity.
Qed.

Lemma keeps_counter_streamSeek (offset : Z) (whence : Whence) :
  keeps_counter (streamSeek offset whence).
Proof.
  intros o. unfold streamSeek.
  destruct (stream o) as [st|]; [|reflexivity].
  destruct (Seek st offset whence) as [[pos err] st']. reflexivity.
Qed.

Lemma keeps_counter_bind {A B} (m : M Src A) (k : A -> M Src B) :
  keeps_counter m -> (forall a, keeps_counter (k a)) ->
  keeps_counter (bind m k).
Proof.
  intros Hm Hk o. unfold bind.
  specialize (Hm o). destruct (m o) as [[a|e| |] o']; simpl in Hm; auto.
  rewrite Hk. exact Hm.
Qed.

Lemma never_fails_with_ret {A} (e : error) (a : A) :
  never_fails_with (Src := Src) e (ret a).
Proof. intros o. discriminate. Qed.

Lemma never_fails_with_panic {A} (e : error) :
  never_fails_with (Src := Src) (A := A) e panic.
Proof. intros o. discriminate. Qed.

Lemma never_fails_with_raise {A} (e e' : error) :
  e' <> e -> never_fails_with (Src := Src) (A := A) e (raise e').
Proof. intros Hne o. simpl. congruence. Qed.

Lemma never_fails_with_must {A} (e : error) (x : option A) :
  never_fails_with (Src := Src) e (must x).
Proof. destruct x; intros o; discriminate. Qed.

Lemma never_fails_with_streamRead (e : error) (len : nat) :
  never_fails_with e (streamRead len).
Proof.
  intros o. unfold streamRead.
  destruct (stream o) as [st|]; [|discriminate].
  destruct (Read st len) as [[data err] st']. discriminate.
Qed.

Lemma never_fails_with_streamSeek (e : error) (offset : Z) (whence : Whence) :
  never_fails_with e (streamSeek offset whence).
Proof.
  intros o. unfold streamSeek.
  destruct (stream o) as [st|]; [|discriminate].
  destruct (Seek st offset whence) as [[pos err] st']. discriminate.
Qed.

Lemma never_fails_with_bind {A B} (e : error) (m : M Src A) (k : A -> M Src B) :
  never_fails_with e m -> (forall a, never_fails_with e (k a)) ->
  never_fails_with e (bind m k).
Proof.
  intros Hm Hk o. unfold bind.
  specialize (Hm o). destruct (m o) as [[a|e'| |] o']; simpl in *.
  - apply Hk.
  - intros [= ->]. now apply Hm.
  - discriminate.
  - discriminate.
Qed.

End Frame.

(** Walks through a method built from [bind], the primitive operations
    and case distinctions; what is known of the methods called is taken
    from the context. *)
Ltac method_walk :=
  repeat first
    [ assumption
    | apply keeps_counter_ret | apply keeps_counter_raise
    | apply keeps_counter_panic | apply keeps_counter_must
    | apply keeps_counter_streamRead | apply keeps_counter_streamSeek
    | apply never_fails_with_ret | apply never_fails_with_panic
    | apply never_fails_with_must
    | apply never_fails_with_streamRead | apply never_fails_with_streamSeek
    | apply never_fails_with_raise; discriminate
    | apply keeps_counter_bind; [|intros ?]
    | apply never_fails_with_bind; [|intros ?]
    | match goal with
      | |- keeps_counter (match ?x with _ => _ end) => destruct x
      | |- never_fails_with _ (match ?x with _ => _ end) => destruct x
      end ].

Section FrameMethods.

Context {Src : Type} `{ReadSeeker Src}.

Lemma keeps_counter_ParseNextPage : keeps_counter ParseNextPage.
Proof. unfold ParseNextPage. method_walk. Qed.

Lemma keeps_counter_skipCommentPages (fuel : nat) :
  keeps_counter (skipCommentPages fuel).
Proof.
  induction fuel as [|fuel IH]; [intros o; reflexivity|].
  pose proof keeps_counter_ParseNextPage as Hparse.
  cbn [skipCommentPages]. method_walk.
Qed.

Lemma keeps_counter_readHeaders (fuel : nat) :
  keeps_counter (readHeaders fuel).
Proof.
  pose proof keeps_counter_ParseNextPage as Hparse.
  pose proof (keeps_counter_skipCommentPages fuel) as Hskip.
  unfold readHeaders. method_walk.
Qed.

Lemma keeps_counter_ResetReader (reset : Z -> option Src) :
  keeps_counter (ResetReader reset).
Proof. intros o. reflexivity. Qed.

Lemma ParseNextPage_never_ErrWrongHeader :
  never_fails_with ErrWrongHeader ParseNextPage.
Proof. unfold ParseNextPage. method_walk. Qed.

Lemma skipCommentPages_never_ErrWrongHeader (fuel : nat) :
  never_fails_with ErrWrongHeader (skipCommentPages fuel).
Proof.
  induction fuel as [|fuel IH]; [intros o; discriminate|].
  pose proof ParseNextPage_never_ErrWrongHeader as Hparse.
  cbn [skipCommentPages]. method_walk.
Qed.

(** Readers in the hands of a client have counted no byte. *)
Lemma reachable_counter_zero (o : OggReader Src) :
  reachable o -> bytesReadSuccesfully o = 0.
Proof.
  induction 1 as [| in_ fuel reader header err Hnew | o _ IH | o fuel _ IH
                 | o reset _ IH].
  - reflexivity.
  - unfold NewWith in Hnew. destruct in_ as [st|]; [|discriminate].
    pose proof (keeps_counter_readHeaders fuel
                  {| stream := Some st; bytesReadSuccesfully := 0 |}) as Hk.
    destruct (readHeaders fuel _) as [[hd|e| |] o']; try discriminate.
    injection Hnew as <- _ _. exact Hk.
  - now rewrite keeps_counter_ParseNextPage.
  - now rewrite keeps_counter_readHeaders.
  - now rewrite keeps_counter_ResetReader.
Qed.

End FrameMethods.

(** ** What a successful ParseNextPage has read *)

Section ParseNextPageInversion.

Context {Src : Type} `{ReadSeeker Src}.

Lemma ParseNextPage_Val_inv (o o' : OggReader Src) payload hdr :
  ParseNextPage o = (Val (payload, hdr), o') ->
  exists st data st1,
    stream o = Some st /\ Read st 28 = (data, None, st1) /\
    (28 <= length data)%nat /\
    ((payloadSizeAt (firstn 28 data) = 0%nat /\ payload = [] /\
      hdr = pageHeaderAt (firstn 28 data) /\
      o' = set_stream o (Some st1))
     \/
     ((0 < payloadSizeAt (firstn 28 data))%nat /\
      exists data' st2,
        Read st1 (payloadSizeAt (firstn 28 data)) = (data', None, st2) /\
        payload = copyInto (make (payloadSizeAt (firstn 28 data))) data' /\
        hdr = set_checksum (pageHeaderAt (firstn 28 data))
                           (checksumAt (firstn 28 data)) /\
        o' = set_stream o (Some st2))).
Proof.
  rewrite ParseNextPage_parsePage. unfold parsePage.
  destruct (stream o) as [st|]; [|discriminate].
  destruct (Read st 28) as [[data err] st1] eqn:Hread.
  destruct err as [e|]; [discriminate|].
  destruct (length data <? 28)%nat eqn:Hn; [discriminate|].
  apply Nat.ltb_ge in Hn.
  destruct (0 <? payloadSizeAt (firstn 28 data))%nat eqn:Hsize.
  - apply Nat.ltb_lt in Hsize.
    destruct (Read st1 _) as [[data' err'] st2] eqn:Hread'.
    destruct err' as [e|]; [discriminate|].
    intros [= <- <- <-].
    exists st, data, st1. repeat split; auto.
    right. split; [exact Hsize|]. exists data', st2. auto.
  - apply Nat.ltb_ge in Hsize.
    intros [= <- <- <-].
    exists st, data, st1. repeat split; auto.
    left. repeat split; auto. lia.
Qed.

End ParseNextPageInversion.

(** ** ParseNextPage over a bytes.Reader *)

Lemma bytesReader_Read_ok (r r' : bytesReader) (len : nat) (data : bytes) :
  Read r len = (data, None, r') ->
  (i r < length (s r))%nat /\
  data = firstn len (skipn (i r) (s r)) /\
  r' = mkBytesReader (s r) (i r + length data).
Proof.
  cbn [Read bytesReader_ReadSeeker]. unfold bytesReader_Read.
  destruct (length (s r) <=? i r)%nat eqn:Hend; [discriminate|].
  apply Nat.leb_gt in Hend. intros [= <- <-]. auto.
Qed.

Lemma ParseNextPage_not_OutOfFuel {Src} `{ReadSeeker Src} (o : OggReader Src) :
  fst (ParseNextPage o) <> OutOfFuel.
Proof.
  rewrite ParseNextPage_parsePage. unfold parsePage.
  destruct (stream o) as [st|]; [|discriminate].
  destruct (Read st 28) as [[data err] st1].
  destruct err; [discriminate|].
  destruct (length data <? 28)%nat; [discriminate|].
  destruct (0 <? _)%nat; [|discriminate].
  destruct (Read st1 _) as [[data' err'] st2].
  destruct err'; discriminate.
Qed.

(** A successful page read moves the reading index forward by at least
    the 28 header bytes, within the same byte slice. *)
Lemma ParseNextPage_consumes (o o1 : OggReader bytesReader) x :
  ParseNextPage o = (Val x, o1) ->
  (remaining o1 + 28 <= remaining o)%nat /\
  exists r r1, stream o = Some r /\ stream o1 = Some r1 /\
               s r1 = s r /\ (i r + 28 <= i r1 <= length (s r))%nat.
Proof.
  destruct x as [payload hdr]. intros Hparse.
  destruct (ParseNextPage_Val_inv _ _ _ _ Hparse)
    as (r & data & r1 & Hst & Hread & Hlen & Hcases).
  apply bytesReader_Read_ok in Hread. destruct Hread as (Hi & -> & ->).
  rewrite length_firstn, length_skipn in Hlen.
  assert (Hdata : length (firstn 28 (skipn (i r) (s r))) = 28%nat)
    by (rewrite length_firstn, length_skipn; lia).
  rewrite Hdata in *.
  unfold remaining, remainingBy, Len. rewrite Hst.
  destruct Hcases as [(_ & _ & _ & ->) | (Hpos & data' & r2 & Hread' & _ & _ & ->)];
    cbn [stream set_stream s i].
  - split; [lia|]. eexists _, _. repeat split; cbn [s i]; lia.
  - apply bytesReader_Read_ok in Hread'. cbn [s i] in Hread'.
    destruct Hread' as (Hi' & -> & ->).
    rewrite length_firstn, length_skipn. cbn [s i].
    split; [lia|]. eexists _, _. repeat split; cbn [s i]; lia.
Qed.

(** Where the source holds the whole page, [ParseNextPage] returns its
    bytes and leaves the reading index behind it. *)
Lemma ParseNextPage_complete_page (r : bytesReader) (c : Z) :
  completePageAt r ->
  ParseNextPage {| stream := Some r; bytesReadSuccesfully := c |}
  = (Val (payloadBytesAt r,
          if (0 <? payloadSizeAt (headerBytesAt r))%nat
          then set_checksum (pageHeaderAt (headerBytesAt r))
                            (checksumAt (headerBytesAt r))
          else pageHeaderAt (headerBytesAt r)),
     {| stream := Some (mkBytesReader (s r)
                          (i r + 28 + payloadSizeAt (headerBytesAt r)));
        bytesReadSuccesfully := c |}).
Proof.
  unfold completePageAt, payloadBytesAt, headerBytesAt. intros Hpage.
  rewrite ParseNextPage_parsePage. unfold parsePage.
  cbn [stream Read bytesReader_ReadSeeker]. unfold bytesReader_Read.
  replace (length (s r) <=? i r)%nat with false
    by (symmetry; apply Nat.leb_gt; lia).
  assert (Hh : length (firstn 28 (skipn (i r) (s r))) = 28%nat)
    by (rewrite length_firstn, length_skipn; lia).
  rewrite Hh. change (28 <? 28)%nat with false. cbv iota.
  rewrite (@firstn_all2 _ 28 (firstn 28 _)) by lia.
  set (h := firstn 28 (skipn (i r) (s r))) in *.
  cbn [s i set_stream bytesReadSuccesfully].
  destruct (0 <? payloadSizeAt h)%nat eqn:Hsize.
  - apply Nat.ltb_lt in Hsize.
    replace (length (s r) <=? i r + 28)%nat with false
      by (symmetry; apply Nat.leb_gt; lia).
    assert (Hp : length (firstn (payloadSizeAt h) (skipn (i r + 28) (s r)))
                 = payloadSizeAt h)
      by (rewrite length_firstn, length_skipn; lia).
    rewrite Hp, copyInto_full by (rewrite length_make; lia).
    rewrite length_make, firstn_all2 by lia. reflexivity.
  - apply Nat.ltb_ge in Hsize.
    replace (payloadSizeAt h) with 0%nat by lia.
    cbn [firstn]. now rewrite Nat.add_0_r.
Qed.

(** Where the source holds the 28 header bytes and some, but not all, of
    the declared payload bytes, [ParseNextPage] reports no error: it
    returns the bytes the source had, followed by zeros up to the
    declared size. *)
Lemma ParseNextPage_truncated_payload (r : bytesReader) (c : Z) :
  (i r + 28 < length (s r))%nat ->
  (length (s r) < i r + 28 + payloadSizeAt (headerBytesAt r))%nat ->
  ParseNextPage {| stream := Some r; bytesReadSuccesfully := c |}
  = (Val (skipn (i r + 28) (s r)
          ++ make (i r + 28 + payloadSizeAt (headerBytesAt r) - length (s r)),
          set_checksum (pageHeaderAt (headerBytesAt r))
                       (checksumAt (headerBytesAt r))),
     {| stream := Some (mkBytesReader (s r) (length (s r)));
        bytesReadSuccesfully := c |}).
Proof.
  unfold headerBytesAt. intros Hheader Hshort.
  rewrite ParseNextPage_parsePage. unfold parsePage.
  cbn [stream Read bytesReader_ReadSeeker]. unfold bytesReader_Read.
  replace (length (s r) <=? i r)%nat with false
    by (symmetry; apply Nat.leb_gt; lia).
  assert (Hh : length (firstn 28 (skipn (i r) (s r))) = 28%nat)
    by (rewrite length_firstn, length_skipn; lia).
  rewrite Hh. change (28 <? 28)%nat with false. cbv iota.
  rewrite (@firstn_all2 _ 28 (firstn 28 _)) by lia.
  set (h := firstn 28 (skipn (i r) (s r))) in *.
  cbn [s i set_stream bytesReadSuccesfully].
  replace (0 <? payloadSizeAt h)%nat with true
    by (symmetry; apply Nat.ltb_lt; lia).
  replace (length (s r) <=? i r + 28)%nat with false
    by (symmetry; apply Nat.leb_gt; lia).
  rewrite (@firstn_all2 _ (payloadSizeAt h))
    by (rewrite length_skipn; lia).
  rewrite copyInto_short by (rewrite length_skipn; lia).
  rewrite length_skipn. unfold set_stream. cbn [bytesReadSuccesfully].
  replace (payloadSizeAt h - (length (s r) - (i r + 28)))%nat
    with (i r + 28 + payloadSizeAt h - length (s r))%nat by lia.
  replace (i r + 28 + (length (s r) - (i r + 28)))%nat
    with (length (s r)) by lia.
  reflexivity.
Qed.

(** ** The loop of readHeaders and its fuel *)

Section Fuel.

Context {Src : Type} `{ReadSeeker Src}.

Lemma skipCommentPages_S (fuel : nat) (o : OggReader Src) :
  skipCommentPages (S fuel) o
  = match ParseNextPage o with
    | (Val (commentPayload, _), o1) =>
        if negb (Contains commentPayload commentPageSignature) then
          ('(_, err) <- streamSeek
             (-1 * Z.of_nat (pageHeaderLen + length commentPayload))
             SeekCurrent ;;
           match err with
           | Some e => raise (ErrStream e)
           | None => ret tt
           end) o1
        else skipCommentPages fuel o1
    | (Error e, o1) => (Error e, o1)
    | (Panic, o1) => (Panic, o1)
    | (OutOfFuel, o1) => (OutOfFuel, o1)
    end.
Proof.
  cbn [skipCommentPages]. unfold bind at 1.
  destruct (ParseNextPage o) as [[[commentPayload hdr]|e| |] o1];
    try reflexivity.
  destruct (negb (Contains commentPayload commentPageSignature)); reflexivity.
Qed.

(** The rewind ends the loop, whatever [Seek] answers. *)
Lemma rewind_not_OutOfFuel (offset : Z) (o : OggReader Src) :
  fst (('(_, err) <- streamSeek offset SeekCurrent ;;
        match err with
        | Some e => raise (ErrStream e)
        | None => ret tt
        end) o) <> OutOfFuel.
Proof.
  unfold bind, streamSeek.
  destruct (stream o) as [st|]; [|discriminate].
  destruct (Seek st offset SeekCurrent) as [[pos err] st'].
  destruct err; discriminate.
Qed.

Lemma skipCommentPages_fuel_mono (fuel fuel' : nat) (o : OggReader Src) :
  (fuel <= fuel')%nat ->
  fst (skipCommentPages fuel o) <> OutOfFuel ->
  skipCommentPages fuel' o = skipCommentPages fuel o.
Proof.
  revert fuel' o. induction fuel as [|fuel IH]; intros fuel' o Hle Hend.
  - now elim Hend.
  - destruct fuel' as [|fuel']; [lia|].
    rewrite !skipCommentPages_S in *.
    destruct (ParseNextPage o) as [[[commentPayload hdr]|e| |] o1];
      try reflexivity.
    destruct (negb (Contains commentPayload commentPageSignature));
      [reflexivity|].
    apply IH; [lia | exact Hend].
Qed.

Lemma settled_const {A} (m : M Src A) (fuel : nat) (o : OggReader Src) :
  fst (m o) <> OutOfFuel -> settled (fun _ => m) fuel o.
Proof. intros Hend. split; [exact Hend | reflexivity]. Qed.

Lemma settled_bind {A B} (m : M Src A) (k : nat -> A -> M Src B)
  (fuel : nat) (o : OggReader Src) :
  fst (m o) <> OutOfFuel ->
  (forall a o1, m o = (Val a, o1) -> settled (fun f => k f a) fuel o1) ->
  settled (fun f => bind m (k f)) fuel o.
Proof.
  intros Hend Hk. unfold settled, bind.
  destruct (m o) as [[a|e| |] o1] eqn:Hm.
  - apply (Hk a o1 eq_refl).
  - split; [discriminate | reflexivity].
  - split; [discriminate | reflexivity].
  - now elim Hend.
Qed.

Lemma settled_bind_must {A B} (x : option A) (k : nat -> A -> M Src B)
  (fuel : nat) (o : OggReader Src) :
  (forall a, x = Some a -> settled (fun f => k f a) fuel o) ->
  settled (fun f => bind (must x) (k f)) fuel o.
Proof.
  intros Hk. destruct x as [a|].
  - apply (Hk a eq_refl).
  - split; [discriminate | reflexivity].
Qed.

Lemma settled_bind_ret {A B} (m : nat -> M Src A) (b : B)
  (fuel : nat) (o : OggReader Src) :
  settled m fuel o ->
  settled (fun f => bind (m f) (fun _ => ret b)) fuel o.
Proof.
  intros [Hend Hmono]. unfold settled, bind. split.
  - destruct (m fuel o) as [[a|e| |] o1]; try discriminate. now elim Hend.
  - intros fuel' Hle. now rewrite (Hmono fuel' Hle).
Qed.

End Fuel.

(** A finite source: a measure [left] of the bytes the source still
    holds, which every read without error lowers by the bytes it
    delivers. *)
Section FiniteSource.

Context {Src : Type} `{ReadSeeker Src}.

Variable left : Src -> nat.

Hypothesis Read_takes :
  forall st len data st',
    Read st len = (data, None, st') -> (left st' + length data <= left st)%nat.

(** A page read that succeeds takes at least the 28 header bytes. *)
Lemma ParseNextPage_takes_28 (o o1 : OggReader Src) page :
  ParseNextPage o = (Val page, o1) ->
  (remainingBy left o1 + 28 <= remainingBy left o)%nat.
Proof.
  destruct page as [payload hdr]. intros Hparse.
  destruct (ParseNextPage_Val_inv _ _ _ _ Hparse)
    as (st & data & st1 & Hst & Hread & Hlen & Hcases).
  apply Read_takes in Hread.
  unfold remainingBy. rewrite Hst.
  destruct Hcases
    as [(_ & _ & _ & ->) | (_ & data' & st2 & Hread' & _ & _ & ->)];
    cbn [stream set_stream].
  - lia.
  - apply Read_takes in Hread'. lia.
Qed.

(** The loop ends within one iteration for every 28 bytes the source
    still holds, and one more. *)
Lemma skipCommentPages_settled_finite (fuel : nat) (o : OggReader Src) :
  (remainingBy left o < 28 * fuel)%nat -> settled skipCommentPages fuel o.
Proof.
  intros Hfuel.
  assert (Hend : fst (skipCommentPages fuel o) <> OutOfFuel).
  { revert o Hfuel. induction fuel as [|fuel IH]; intros o Hfuel; [lia|].
    rewrite skipCommentPages_S.
    pose proof (ParseNextPage_not_OutOfFuel o) as Hparse.
    destruct (ParseNextPage o) as [[[commentPayload hdr]|e| |] o1] eqn:Hp;
      try discriminate; [|now elim Hparse].
    destruct (negb (Contains commentPayload commentPageSignature)).
    - apply rewind_not_OutOfFuel.
    - apply IH. apply ParseNextPage_takes_28 in Hp. lia. }
  split; [exact Hend|].
  intros fuel' Hle. now apply skipCommentPages_fuel_mono.
Qed.

Lemma readHeaders_settled_finite (fuel : nat) (o : OggReader Src) :
  (remainingBy left o < 28 * (fuel + 1))%nat -> settled readHeaders fuel o.
Proof.
  intros Hfuel. unfold readHeaders.
  apply settled_bind; [apply ParseNextPage_not_OutOfFuel|].
  intros [payload ph] o1 Hparse.
  apply ParseNextPage_takes_28 in Hparse.
  repeat
    match goal with
    | |- settled (fun _ => if ?c then _ else _) _ _ => destruct c
    | |- settled (fun _ => raise _) _ _ =>
        apply settled_const; discriminate
    | |- settled (fun _ => bind (must _) _) _ _ =>
        apply settled_bind_must; intros ? _
    end.
  apply settled_bind_ret, skipCommentPages_settled_finite. lia.
Qed.

End FiniteSource.

(** A [bytes.Reader] is a finite source, measured by [Len]. *)
Lemma bytesReader_Read_takes
  (r : bytesReader) (len : nat) (data : bytes) (r' : bytesReader) :
  Read r len = (data, None, r') -> (Len r' + length data <= Len r)%nat.
Proof.
  intros Hread. apply bytesReader_Read_ok in Hread.
  destruct Hread as (Hi & -> & ->). unfold Len. cbn [s i].
  rewrite length_firstn, length_skipn. lia.
Qed.

(** Where the source holds the whole of a page without "OpusTags", one
    turn of the loop reads it and rewinds to where it began: the reader
    is as before, so the next [ParseNextPage] reads that page again. *)
Lemma skipCommentPages_rewinds_complete_page
  (fuel : nat) (r : bytesReader) (c : Z) :
  completePageAt r ->
  Contains (payloadBytesAt r) commentPageSignature = false ->
  skipCommentPages (S fuel) {| stream := Some r; bytesReadSuccesfully := c |}
  = (Val tt, {| stream := Some r; bytesReadSuccesfully := c |}).
Proof.
  intros Hpage Htags.
  rewrite skipCommentPages_S, (ParseNextPage_complete_page r c Hpage), Htags.
  cbn [negb]. unfold bind, streamSeek.
  cbn [stream Seek bytesReader_ReadSeeker]. unfold bytesReader_Seek.
  cbn [s i].
  assert (Hlen : length (payloadBytesAt r) = payloadSizeAt (headerBytesAt r)).
  { unfold payloadBytesAt, completePageAt in *.
    rewrite length_firstn, length_skipn. lia. }
  rewrite Hlen. change pageHeaderLen with 28%nat.
  set (abs := Z.of_nat (i r + 28 + payloadSizeAt (headerBytesAt r))
              + -1 * Z.of_nat (28 + payloadSizeAt (headerBytesAt r))).
  assert (Habs : abs = Z.of_nat (i r)) by (subst abs; lia).
  rewrite Habs.
  replace (Z.of_nat (i r) <? 0) with false by (symmetry; apply Z.ltb_ge; lia).
  rewrite Nat2Z.id. destruct r. reflexivity.
Qed.

(** * Properties of the package *)

Section Claims.

Context {Src : Type} `{ReadSeeker Src}.

(** C7. When the source delivers the 28 header bytes [h], and the read of
    the payload (if the size byte is not zero) reports no error,
    [ParseNextPage] returns a page whose header fields are the
    little-endian values at the offsets of the layout table: signature
    at bytes 0-3, version at 4, header type at 5, granule position at
    6-13, serial number at 14-17, page sequence index at 18-21, segments
    count at 26; the payload's length is the size byte at offset 27,
    between 0 and 255. It does so whatever the signature and the header
    type are: nothing is validated here. *)
Theorem ParseNextPage_decodes_layout
  (o : OggReader Src) (st st1 : Src) (h : bytes) :
  stream o = Some st ->
  Read st 28 = (h, None, st1) ->
  length h = 28%nat ->
  (u8 (nth 27 h Init.Byte.x00) = 0 \/
   snd (fst (Read st1 (Z.to_nat (u8 (nth 27 h Init.Byte.x00))))) = None) ->
  exists payload hdr o',
    ParseNextPage o = (Val (payload, hdr), o') /\
    sig hdr = firstn 4 h /\
    version hdr = u8 (nth 4 h Init.Byte.x00) /\
    headerType hdr = u8 (nth 5 h Init.Byte.x00) /\
    granulePos hdr = le_value (firstn 8 (skipn 6 h)) /\
    serial hdr = le_value (firstn 4 (skipn 14 h)) /\
    index hdr = le_value (firstn 4 (skipn 18 h)) /\
    segmentsCount hdr = u8 (nth 26 h Init.Byte.x00) /\
    Z.of_nat (length payload) = u8 (nth 27 h Init.Byte.x00) /\
    0 <= Z.of_nat (length payload) <= 255.
Proof.
  intros Hst Hread Hlen Hpayload.
  pose proof (u8_range (nth 27 h Init.Byte.x00)) as Hsize.
  rewrite ParseNextPage_parsePage. unfold parsePage.
  rewrite Hst, Hread.
  replace (length h <? 28)%nat with false
    by (symmetry; apply Nat.ltb_ge; lia).
  rewrite firstn_all2 by lia.
  unfold payloadSizeAt.
  destruct (0 <? Z.to_nat (u8 (nth 27 h Init.Byte.x00)))%nat eqn:Hpos.
  - apply Nat.ltb_lt in Hpos.
    destruct Hpayload as [Hzero | Hok]; [lia|].
    destruct (Read st1 _) as [[data' err'] st2].
    simpl in Hok. subst err'.
    eexists _, _, _. split; [reflexivity|].
    cbn [set_checksum pageHeaderAt sig version headerType granulePos serial
         index segmentsCount].
    rewrite length_copyInto, length_make.
    repeat split; lia.
  - apply Nat.ltb_ge in Hpos.
    eexists _, _, _. split; [reflexivity|].
    cbn [pageHeaderAt sig version headerType granulePos serial index
         segmentsCount length].
    repeat split; lia.
Qed.


(** C6. A page read, successful or failed, leaves the reader's
    bytes-consumed counter as it was, and so does the reading of the
    headers; [ResetReader] installs the source its factory returns for
    the counter's current value; so for every reader a client can hold
    the factory is called with zero. *)
Theorem ResetReader_factory_receives_zero
  (o : OggReader Src) (reset : Z -> option Src) :
  bytesReadSuccesfully (snd (ParseNextPage o)) = bytesReadSuccesfully o /\
  (forall fuel,
     bytesReadSuccesfully (snd (readHeaders fuel o)) = bytesReadSuccesfully o) /\
  ResetReader reset o
    = (Val tt, {| stream := reset (bytesReadSuccesfully o);
                  bytesReadSuccesfully := bytesReadSuccesfully o |}) /\
  (reachable o ->
   ResetReader reset o
     = (Val tt, {| stream := reset 0; bytesReadSuccesfully := 0 |})).
Proof.
  split; [apply keeps_counter_ParseNextPage|].
  split; [intros fuel; apply keeps_counter_readHeaders|].
  split; [reflexivity|].
  intros Hreach. unfold ResetReader, set_stream.
  now rewrite (reachable_counter_zero o Hreach).
Qed.

(** C9. With a nil source [NewWith] returns the nil-source error, no
    reader and no header, whatever [Read] and [Seek] of the source type
    do and whatever the fuel: no source is read. And whenever [NewWith]
    returns an error, for any source, it returns no reader and no header
    with it. *)
Theorem NewWith_nil_source (fuel : nat) :
  NewWith (Src := Src) None fuel = Returns None None (Some ErrNilStream) /\
  (forall in_ : option Src,
     match NewWith in_ fuel with
     | Returns reader header (Some _) => reader = None /\ header = None
     | Returns reader header None => reader <> None /\ header <> None
     | Panics | Diverges => True
     end).
Proof.
  split; [reflexivity|].
  intros [st|]; unfold NewWith; [|split; reflexivity].
  destruct (readHeaders fuel _) as [[header|e| |] o'];
    [split; discriminate | split; reflexivity | exact I | exact I].
Qed.

(** C2, as amended. Once the first page is read and carries the
    signature "OggS", construction fails with the wrong-header-type
    error exactly when the page's header type differs from 0x02: the
    check is an equality with the beginning-of-stream value, not a test
    of its bit. *)
Theorem NewWith_wrong_header_iff_not_0x02
  (st : Src) (fuel : nat) (payload : bytes) (ph : OggPageHeader)
  (o1 : OggReader Src) :
  ParseNextPage {| stream := Some st; bytesReadSuccesfully := 0 |}
    = (Val (payload, ph), o1) ->
  sig ph = pageHeaderSignature ->
  (NewWith (Some st) fuel = Returns None None (Some ErrWrongHeader)
   <-> headerType ph <> 0x02).
Proof.
  intros Hparse Hsig.
  pose proof (skipCommentPages_never_ErrWrongHeader fuel) as Hskip.
  unfold NewWith, readHeaders. unfold bind at 1.
  rewrite Hparse, Hsig.
  change (bytes_eqb pageHeaderSignature pageHeaderSignature) with true.
  change pageHeaderTypeBeginningOfStream with 2.
  cbn [negb].
  destruct (headerType ph =? 2) eqn:Htype; cbn [negb].
  - apply Z.eqb_eq in Htype.
    match goal with
    | |- context [match ?rest o1 with _ => _ end] =>
        assert (Hrest : never_fails_with ErrWrongHeader rest)
          by method_walk;
        specialize (Hrest o1); destruct (rest o1) as [[hd|e| |] o']
    end; cbn [fst] in Hrest; split; intros Hx;
      try discriminate Hx; try contradiction.
    injection Hx as ->. now elim Hrest.
  - apply Z.eqb_neq in Htype. split; [intros _; exact Htype|reflexivity].
Qed.

(** C5. When the first page passes the checks of [readHeaders] and its
    payload has at least 19 bytes, the header that [readHeaders] carries
    through the skipping of the comment pages has the little-endian
    values at the fixed offsets of the payload: version at byte 8,
    channel count at 9, pre-skip at 10-11, sample rate at 12-15, output
    gain at 16-17, channel mapping family at 18. So a value encoded at
    its offset is decoded again: a sample rate [v] below [2^32] whose four
    little-endian bytes lie at offset 12 is read as [v], and likewise the
    two-byte fields. *)
Theorem readHeaders_decodes_OggHeader
  (fuel : nat) (o o1 : OggReader Src) (payload : bytes) (ph : OggPageHeader) :
  ParseNextPage o = (Val (payload, ph), o1) ->
  sig ph = pageHeaderSignature ->
  headerType ph = 0x02 ->
  firstn 8 payload = idPageSignature ->
  (19 <= length payload)%nat ->
  exists header,
    readHeaders fuel o = (_ <- skipCommentPages fuel ;; ret header) o1 /\
    Version header = u8 (nth 8 payload Init.Byte.x00) /\
    Channels header = u8 (nth 9 payload Init.Byte.x00) /\
    PreSkip header = le_value (firstn 2 (skipn 10 payload)) /\
    SampleRate header = le_value (firstn 4 (skipn 12 payload)) /\
    OutputGain header = le_value (firstn 2 (skipn 16 payload)) /\
    ChannelMap header = u8 (nth 18 payload Init.Byte.x00) /\
    (forall v, 0 <= v < 2 ^ 16 ->
       firstn 2 (skipn 10 payload) = le_bytes 2 v -> PreSkip header = v) /\
    (forall v, 0 <= v < 2 ^ 32 ->
       firstn 4 (skipn 12 payload) = le_bytes 4 v -> SampleRate header = v) /\
    (forall v, 0 <= v < 2 ^ 16 ->
       firstn 2 (skipn 16 payload) = le_bytes 2 v -> OutputGain header = v).
Proof.
  intros Hparse Hsig Htype Hid Hlen.
  exists (oggHeaderAt payload).
  split.
  - unfold readHeaders. unfold bind at 1.
    rewrite Hparse, Hsig, Htype.
    change (bytes_eqb pageHeaderSignature pageHeaderSignature) with true.
    change (2 =? pageHeaderTypeBeginningOfStream) with true.
    cbn [negb].
    replace (length payload =? 0)%nat with false
      by (symmetry; apply Nat.eqb_neq; lia).
    unfold oggHeaderAt.
    do 19 (destruct payload as [|? payload]; [simpl in Hlen; lia|]).
    cbn [firstn] in Hid.
    repeat progress
      (cbn [byteAt nth_error slice Nat.leb Nat.add Nat.sub andb length
            firstn skipn must nth];
       rewrite ?bind_ret, ?Uint16_le_value, ?Uint32_le_value,
         ?(proj2 (bytes_eqb_eq _ _) Hid)).
    reflexivity.
  - cbn [oggHeaderAt Version Channels PreSkip SampleRate OutputGain
         ChannelMap].
    repeat (split; [reflexivity|]).
    repeat split; intros v Hv ->; rewrite le_value_le_bytes;
      apply Z.mod_small; exact Hv.
Qed.

(** The signature check of the identification payload, in general: a
    payload of 1 to 7 bytes makes the slice expression [payload[:8]]
    panic, and a payload of 8 bytes or more that does not begin with
    "OpusHead" is refused with the wrong-signature error. *)
Lemma readHeaders_short_payload_panics
  (fuel : nat) (o o1 : OggReader Src) (payload : bytes) (ph : OggPageHeader) :
  ParseNextPage o = (Val (payload, ph), o1) ->
  sig ph = pageHeaderSignature ->
  headerType ph = 0x02 ->
  (0 < length payload < 8)%nat ->
  readHeaders fuel o = (Panic, o1).
Proof.
  intros Hparse Hsig Htype Hlen.
  unfold readHeaders. unfold bind at 1.
  rewrite Hparse, Hsig, Htype.
  change (bytes_eqb pageHeaderSignature pageHeaderSignature) with true.
  change (2 =? pageHeaderTypeBeginningOfStream) with true.
  cbn [negb].
  replace (length payload =? 0)%nat with false
    by (symmetry; apply Nat.eqb_neq; lia).
  unfold slice.
  replace (8 <=? length payload)%nat with false
    by (symmetry; apply Nat.leb_gt; lia).
  reflexivity.
Qed.

Lemma readHeaders_wrong_signature
  (fuel : nat) (o o1 : OggReader Src) (payload : bytes) (ph : OggPageHeader) :
  ParseNextPage o = (Val (payload, ph), o1) ->
  sig ph = pageHeaderSignature ->
  headerType ph = 0x02 ->
  (8 <= length payload)%nat ->
  firstn 8 payload <> idPageSignature ->
  readHeaders fuel o = (Error (ErrWrongSignature (firstn 8 payload)), o1).
Proof.
  intros Hparse Hsig Htype Hlen Hid.
  unfold readHeaders. unfold bind at 1.
  rewrite Hparse, Hsig, Htype.
  change (bytes_eqb pageHeaderSignature pageHeaderSignature) with true.
  change (2 =? pageHeaderTypeBeginningOfStream) with true.
  cbn [negb].
  replace (length payload =? 0)%nat with false
    by (symmetry; apply Nat.eqb_neq; lia).
  unfold slice.
  replace (8 <=? length payload)%nat with true
    by (symmetry; apply Nat.leb_le; lia).
  cbn [Nat.leb andb Nat.sub skipn must]. rewrite bind_ret.
  destruct (bytes_eqb (firstn 8 payload) idPageSignature) eqn:Heq.
  - apply bytes_eqb_eq in Heq. contradiction.
  - reflexivity.
Qed.

End Claims.

(** C10. Over a finite byte source (a [bytes.Reader]) the reading of the
    headers ends: with one unit of fuel for every 28 bytes the source
    still holds, [readHeaders] does not run out of fuel, and more fuel
    gives the same outcome. The reason is that every page read that
    succeeds takes at least 28 bytes from the source, so the loop over
    the comment pages either meets a page without "OpusTags" and leaves,
    or a read fails and ends it. ([readHeaders_settled_finite] is the
    same for any source with a measure that reads lower.) *)
Theorem readHeaders_terminates (o : OggReader bytesReader) (fuel : nat) :
  (remaining o < 28 * (fuel + 1))%nat ->
  fst (readHeaders fuel o) <> OutOfFuel /\
  (forall fuel', (fuel <= fuel')%nat ->
     readHeaders fuel' o = readHeaders fuel o) /\
  (forall o' page o1,
     ParseNextPage o' = (Val page, o1) ->
     (remaining o1 + 28 <= remaining o')%nat).
Proof.
  intros Hfuel.
  destruct (readHeaders_settled_finite Len bytesReader_Read_takes fuel o Hfuel)
    as [Hend Hmono].
  split; [exact Hend|]. split; [exact Hmono|].
  intros o' page o1 Hparse.
  exact (ParseNextPage_takes_28 Len bytesReader_Read_takes o' o1 page Hparse).
Qed.

(** * The package at concrete streams *)

Section Concrete.

Import Vectors.
Import Init.Byte.

(** C1. The stream holds a page header that declares 4 payload bytes,
    followed by a single byte. [ParseNextPage] reports no error: it
    returns a 4-byte payload, the byte of the stream and three zeros. *)
Theorem ParseNextPage_pads_truncated_payload :
  payloadSizeAt (headerBytesAt truncatedStream) = 4%nat /\
  skipn 28 (s truncatedStream) = [x0a] /\
  exists hdr o',
    ParseNextPage (readerOf truncatedStream)
    = (Val ([x0a; x00; x00; x00], hdr), o').
Proof.
  split; [reflexivity|]. split; [reflexivity|].
  eexists _, _. vm_compute. reflexivity.
Qed.

(** C2, as the claim states it, fails. The first page of the stream has
    the signature "OggS" and the header type 0x03, in which the
    beginning-of-stream bit 0x02 is set; construction fails with the
    wrong-header-type error. The error is raised before the loop over
    the comment pages, so the fuel plays no part. *)
Lemma header_type_0x03_is_refused :
  exists payload ph o1,
    ParseNextPage (readerOf type03Stream) = (Val (payload, ph), o1) /\
    sig ph = pageHeaderSignature /\
    headerType ph = 0x03 /\
    Z.land (headerType ph) pageHeaderTypeBeginningOfStream
      = pageHeaderTypeBeginningOfStream /\
    NewWith (Some type03Stream) 1 = Returns None None (Some ErrWrongHeader).
Proof.
  eexists _, _, _. split; [vm_compute; reflexivity|].
  repeat split.
Qed.

(** C3. The first page has the signature "OggS", the header type 0x02
    and a payload of one byte; construction panics at the slice
    expression [payload[:8]] instead of failing with a format error. *)
Theorem NewWith_panics_on_short_id_payload :
  (exists ph o1,
     ParseNextPage (readerOf shortIdStream) = (Val ([x4f], ph), o1) /\
     sig ph = pageHeaderSignature /\
     headerType ph = pageHeaderTypeBeginningOfStream) /\
  NewWith (Some shortIdStream) 1 = Panics.
Proof.
  split; [|reflexivity].
  eexists _, _. split; [vm_compute; reflexivity|]. split; reflexivity.
Qed.

(** C4. The stream holds an identification page (47 bytes) and then a
    page that declares 4 payload bytes, of which only 1 is there.
    [readHeaders] reads that page from index 47 without an error, with a
    zero-padded payload that has no "OpusTags"; it then rewinds by
    28 + 4 bytes from index 76, to index 44, before the page's start; the
    next [ParseNextPage] does not return that page. *)
Theorem readHeaders_rewind_misses_truncated_page :
  exists reader header page o1,
    NewWith (Some truncatedSecondStream) 1
      = Returns (Some reader) (Some header) None /\
    ParseNextPage (readerOf (mkBytesReader (s truncatedSecondStream) 47))
      = (Val page, o1) /\
    fst page = [x0a; x00; x00; x00] /\
    Contains (fst page) commentPageSignature = false /\
    stream o1 = Some (mkBytesReader (s truncatedSecondStream) 76) /\
    stream reader = Some (mkBytesReader (s truncatedSecondStream) 44) /\
    fst (ParseNextPage reader) <> Val page.
Proof.
  eexists _, _, _, _.
  split; [vm_compute; reflexivity|].
  split; [vm_compute; reflexivity|].
  repeat (split; [reflexivity|]).
  vm_compute. discriminate.
Qed.

(** ** The theorems with hypotheses, at concrete streams *)

(** C2 as amended, at the stream whose first page has header type 0x03. *)
Lemma NewWith_wrong_header_iff_not_0x02_witness :
  let ph := set_checksum (pageHeaderAt (idPage x03)) (checksumAt (idPage x03)) in
  let o1 := readerOf (mkBytesReader (s type03Stream) 47) in
  ParseNextPage (readerOf type03Stream) = (Val (idPayload, ph), o1) /\
  sig ph = pageHeaderSignature /\
  (NewWith (Some type03Stream) 1 = Returns None None (Some ErrWrongHeader)
   <-> headerType ph <> 0x02).
Proof.
  intros ph o1.
  assert (Hparse : ParseNextPage (readerOf type03Stream)
                   = (Val (idPayload, ph), o1))
    by (vm_compute; reflexivity).
  split; [exact Hparse|].
  split; [reflexivity|].
  exact (NewWith_wrong_header_iff_not_0x02 type03Stream 1 idPayload ph o1
           Hparse eq_refl).
Defined.

(** C5 at the well-formed stream: the sample rate 48000, encoded at
    offset 12 of the identification payload, is decoded as 48000. *)
Lemma readHeaders_decodes_OggHeader_witness :
  let ph := set_checksum (pageHeaderAt (idPage x02)) (checksumAt (idPage x02)) in
  let o1 := readerOf (mkBytesReader (s goodStream) 47) in
  ParseNextPage (readerOf goodStream) = (Val (idPayload, ph), o1) /\
  sig ph = pageHeaderSignature /\
  headerType ph = 0x02 /\
  firstn 8 idPayload = idPageSignature /\
  (19 <= length idPayload)%nat /\
  firstn 4 (skipn 12 idPayload) = le_bytes 4 48000 /\
  exists header,
    readHeaders 2 (readerOf goodStream)
      = (_ <- skipCommentPages 2 ;; ret header) o1 /\
    SampleRate header = 48000.
Proof.
  intros ph o1.
  assert (Hparse : ParseNextPage (readerOf goodStream)
                   = (Val (idPayload, ph), o1))
    by (vm_compute; reflexivity).
  assert (Hlen : (19 <= length idPayload)%nat)
    by (apply Nat.leb_le; reflexivity).
  split; [exact Hparse|].
  do 3 (split; [reflexivity|]).
  split; [exact Hlen|].
  split; [reflexivity|].
  destruct (readHeaders_decodes_OggHeader 2 (readerOf goodStream) o1
              idPayload ph Hparse eq_refl eq_refl eq_refl Hlen)
    as (header & Hrun & _ & _ & _ & _ & _ & _ & _ & Hrate & _).
  exists header. split; [exact Hrun|].
  apply Hrate; [lia | reflexivity].
Defined.

(** C6 at the reader that [NewWith] returns for the well-formed stream,
    with a factory that reopens the stream at the offset it is given. *)
Lemma ResetReader_factory_receives_zero_witness :
  let o := {| stream := Some (mkBytesReader (s goodStream) 83);
              bytesReadSuccesfully := 0 |} in
  let reset := fun bytesRead : Z =>
                 Some (mkBytesReader (s goodStream) (Z.to_nat bytesRead)) in
  reachable o /\
  ResetReader reset o
    = (Val tt, {| stream := Some (mkBytesReader (s goodStream) 0);
                  bytesReadSuccesfully := 0 |}).
Proof.
  intros o reset.
  assert (Hreach : reachable o).
  { apply (reach_NewWith (Some goodStream) 2 o
             (Some (oggHeaderAt idPayload)) None).
    vm_compute. reflexivity. }
  split; [exact Hreach|].
  destruct (ResetReader_factory_receives_zero o reset) as (_ & _ & _ & Hzero).
  exact (Hzero Hreach).
Defined.

(** C7 at the first page of the well-formed stream. *)
Lemma ParseNextPage_decodes_layout_witness :
  let h := firstn 28 (s goodStream) in
  let st1 := mkBytesReader (s goodStream) 28 in
  stream (readerOf goodStream) = Some goodStream /\
  Read goodStream 28 = (h, None, st1) /\
  length h = 28%nat /\
  snd (fst (Read st1 (Z.to_nat (u8 (nth 27 h x00))))) = None /\
  exists payload hdr o',
    ParseNextPage (readerOf goodStream) = (Val (payload, hdr), o') /\
    sig hdr = firstn 4 h /\
    headerType hdr = u8 (nth 5 h x00) /\
    Z.of_nat (length payload) = u8 (nth 27 h x00).
Proof.
  intros h st1.
  assert (Hread : Read goodStream 28 = (h, None, st1)) by reflexivity.
  assert (Hlen : length h = 28%nat) by reflexivity.
  assert (Hpayload :
            snd (fst (Read st1 (Z.to_nat (u8 (nth 27 h x00))))) = None)
    by reflexivity.
  split; [reflexivity|]. split; [exact Hread|]. split; [exact Hlen|].
  split; [exact Hpayload|].
  destruct (ParseNextPage_decodes_layout (readerOf goodStream) goodStream
              st1 h eq_refl Hread Hlen (or_intror Hpayload))
    as (payload & hdr & o' & Hparse & Hsig & _ & Htype & _ & _ & _ & _
        & Hsize & _).
  exists payload, hdr, o'. split; [exact Hparse|].
  split; [exact Hsig|]. split; [exact Htype | exact Hsize].
Defined.


(** C10 at the well-formed stream of 114 bytes, with fuel 4. *)
Lemma readHeaders_terminates_witness :
  (remaining (readerOf goodStream) < 28 * (4 + 1))%nat /\
  fst (readHeaders 4 (readerOf goodStream)) <> OutOfFuel.
Proof.
  assert (Hfuel : (remaining (readerOf goodStream) < 28 * (4 + 1))%nat)
    by (apply Nat.ltb_lt; reflexivity).
  split; [exact Hfuel|].
  apply (readHeaders_terminates (readerOf goodStream) 4 Hfuel).
Defined.

End Concrete.

(** * Further properties: pages in a stream *)

Lemma firstn_skipn_middle {A} (pre mid post : list A) :
  firstn (length mid) (skipn (length pre) (pre ++ mid ++ post)) = mid.
Proof.
  rewrite skipn_app, skipn_all, Nat.sub_diag. cbn [skipn app].
  rewrite firstn_app, firstn_all, Nat.sub_diag. cbn [firstn].
  apply app_nil_r.
Qed.

(** Where the stream holds, at the reading index, a header and the
    payload it frames, [ParseNextPage] returns that payload and that
    header and leaves the index after the page. *)
Lemma ParseNextPage_framed
  (r : bytesReader) (c : Z) (pre h payload post : bytes) :
  s r = pre ++ h ++ payload ++ post ->
  i r = length pre ->
  frames h payload ->
  ParseNextPage {| stream := Some r; bytesReadSuccesfully := c |}
  = (Val (payload, headerOf h),
     {| stream := Some (mkBytesReader (s r)
                          (length pre + 28 + length payload));
        bytesReadSuccesfully := c |}).
Proof.
  intros Hs Hi [Hh Hsize].
  assert (Hhdr : headerBytesAt r = h).
  { unfold headerBytesAt. rewrite Hs, Hi, <- Hh. apply firstn_skipn_middle. }
  assert (Hpay : payloadBytesAt r = payload).
  { unfold payloadBytesAt. rewrite Hhdr, Hsize, Hs, Hi.
    replace (length pre + 28)%nat with (length (pre ++ h))
      by (rewrite length_app; lia).
    rewrite (app_assoc pre h). apply firstn_skipn_middle. }
  assert (Hpage : completePageAt r).
  { unfold completePageAt. rewrite Hhdr, Hsize, Hi, Hs.
    rewrite !length_app. lia. }
  rewrite (ParseNextPage_complete_page r c Hpage).
  unfold headerOf. rewrite Hhdr, Hpay, Hsize, Hi. reflexivity.
Qed.

(** At the end of the source the header read meets [io.EOF]; the reader
    is left as it was. *)
Lemma ParseNextPage_at_end (r : bytesReader) (c : Z) :
  (length (s r) <= i r)%nat ->
  ParseNextPage {| stream := Some r; bytesReadSuccesfully := c |}
  = (Error (ErrStream EOF),
     {| stream := Some r; bytesReadSuccesfully := c |}).
Proof.
  intros Hend. rewrite ParseNextPage_parsePage. unfold parsePage.
  cbn [stream Read bytesReader_ReadSeeker]. unfold bytesReader_Read.
  replace (length (s r) <=? i r)%nat with true
    by (symmetry; apply Nat.leb_le; exact Hend).
  reflexivity.
Qed.

(** [bytes.HasPrefix] and [bytes.Contains] find what they are named
    after. *)
Lemma HasPrefix_iff (b prefix : bytes) :
  HasPrefix b prefix = true <-> exists post, b = prefix ++ post.
Proof.
  revert b. induction prefix as [|p prefix IH]; intros b.
  - destruct b; simpl; split; eauto.
  - destruct b as [|x b]; simpl.
    + split; [discriminate | intros [post Hpost]; discriminate Hpost].
    + rewrite andb_true_iff, IH. split.
      * intros [Hx [post ->]]. apply Byte.byte_dec_bl in Hx. subst.
        now exists post.
      * intros [post [= -> ->]]. split; [now apply Byte.byte_dec_lb|].
        now exists post.
Qed.

Lemma Contains_iff (b subslice : bytes) :
  Contains b subslice = true <->
  exists pre post, b = pre ++ subslice ++ post.
Proof.
  induction b as [|x b IH].
  - cbn [Contains]. rewrite orb_false_r, HasPrefix_iff. split.
    + intros [post Hpost]. now exists [], post.
    + intros [pre [post Hb]].
      destruct pre; [now exists post|discriminate Hb].
  - cbn [Contains]. rewrite orb_true_iff, HasPrefix_iff, IH. split.
    + intros [[post Hpost] | [pre [post ->]]].
      * now exists [], post.
      * now exists (x :: pre), post.
    + intros [[|y pre] [post Hb]].
      * left. now exists post.
      * right. injection Hb as -> ->. now exists pre, post.
Qed.

(** The loop reads over comment pages: with fuel for each of them it
    comes, with the fuel that is left, to the index after the last. *)
Lemma skipCommentPages_over_comments
  (comments : list (bytes * bytes)) (c : Z) (k : nat) :
  Forall commentPageLike comments ->
  forall (data pre tail : bytes),
    data = pre ++ concat (map pageBytes comments) ++ tail ->
    skipCommentPages (length comments + k)
      {| stream := Some (mkBytesReader data (length pre));
         bytesReadSuccesfully := c |}
    = skipCommentPages k
        {| stream := Some (mkBytesReader data
                     (length pre + length (concat (map pageBytes comments))));
           bytesReadSuccesfully := c |}.
Proof.
  induction 1 as [|[h p] comments [Hframes Htags] _ IH]; intros data pre tail Hdata.
  - cbn [map concat length Nat.add]. now rewrite Nat.add_0_r.
  - cbn [fst snd] in Hframes, Htags.
    cbn [map concat length Nat.add] in *.
    change (pageBytes (h, p)) with (h ++ p) in *.
    rewrite skipCommentPages_S.
    rewrite (ParseNextPage_framed (mkBytesReader data (length pre)) c
               pre h p (concat (map pageBytes comments) ++ tail));
      [| cbn [s]; rewrite Hdata, <- !app_assoc; reflexivity
       | reflexivity | exact Hframes].
    rewrite Htags. cbn [negb s].
    destruct Hframes as [Hh _].
    replace (length pre + 28 + length p)%nat with (length (pre ++ h ++ p))
      by (rewrite !length_app; lia).
    rewrite (IH data (pre ++ h ++ p) tail)
      by (rewrite Hdata, <- !app_assoc; reflexivity).
    replace (length (pre ++ h ++ p)
             + length (concat (map pageBytes comments)))%nat
      with (length pre
            + length ((h ++ p) ++ concat (map pageBytes comments)))%nat
      by (rewrite !length_app; lia).
    reflexivity.
Qed.

Section IdPage.

Context {Src : Type} `{ReadSeeker Src}.

(** A first page that passes every check of [readHeaders] hands the
    decoded header to the loop over the comment pages. *)
Lemma readHeaders_accepts_id_page
  (fuel : nat) (o o1 : OggReader Src) (payload : bytes) (ph : OggPageHeader) :
  ParseNextPage o = (Val (payload, ph), o1) ->
  sig ph = pageHeaderSignature ->
  headerType ph = 0x02 ->
  firstn 8 payload = idPageSignature ->
  (19 <= length payload)%nat ->
  readHeaders fuel o
  = (_ <- skipCommentPages fuel ;; ret (oggHeaderAt payload)) o1.
Proof.
  intros Hparse Hsig Htype Hid Hlen.
  unfold readHeaders. unfold bind at 1.
  rewrite Hparse, Hsig, Htype.
  change (bytes_eqb pageHeaderSignature pageHeaderSignature) with true.
  change (2 =? pageHeaderTypeBeginningOfStream) with true.
  cbn [negb].
  replace (length payload =? 0)%nat with false
    by (symmetry; apply Nat.eqb_neq; lia).
  unfold oggHeaderAt.
  do 19 (destruct payload as [|? payload]; [simpl in Hlen; lia|]).
  cbn [firstn] in Hid.
  repeat progress
    (cbn [byteAt nth_error slice Nat.leb Nat.add Nat.sub andb length
          firstn skipn must nth];
     rewrite ?bind_ret, ?Uint16_le_value, ?Uint32_le_value,
       ?(proj2 (bytes_eqb_eq _ _) Hid)).
  reflexivity.
Qed.

End IdPage.

(** X1. A caller that reads page after page from a stream made of framed
    pages gets every page, in order, with its payload bytes unchanged
    and the header its 28 bytes stand for; the reading index ends behind
    the last page, and if the stream ends there the next read fails with
    [io.EOF] and leaves the reader as it is. *)
Theorem ParseNextPages_reads_pages_in_order
  (pages : list (bytes * bytes)) (c : Z) :
  Forall (fun p => frames (fst p) (snd p)) pages ->
  forall data pre tail : bytes,
    data = pre ++ concat (map pageBytes pages) ++ tail ->
    let o' := {| stream := Some (mkBytesReader data
                   (length pre + length (concat (map pageBytes pages))));
                 bytesReadSuccesfully := c |} in
    ParseNextPages (length pages)
      {| stream := Some (mkBytesReader data (length pre));
         bytesReadSuccesfully := c |}
    = (Val (map pageOf pages), o') /\
    (tail = [] -> ParseNextPage o' = (Error (ErrStream EOF), o')).
Proof.
  intros Hall data pre tail Hdata o'. split.
  - subst o'. revert data pre tail Hdata.
    induction Hall as [|[h p] pages Hframes _ IH]; intros data pre tail Hdata.
    + cbn [ParseNextPages map concat length]. now rewrite Nat.add_0_r.
    + cbn [fst snd] in Hframes. cbn [map concat length] in *.
      change (pageBytes (h, p)) with (h ++ p) in *.
      cbn [ParseNextPages]. unfold bind at 1.
      rewrite (ParseNextPage_framed (mkBytesReader data (length pre)) c
                 pre h p (concat (map pageBytes pages) ++ tail));
        [| cbn [s]; rewrite Hdata, <- !app_assoc; reflexivity
         | reflexivity | exact Hframes].
      cbn [s]. destruct Hframes as [Hh _].
      replace (length pre + 28 + length p)%nat with (length (pre ++ h ++ p))
        by (rewrite !length_app; lia).
      unfold bind at 1.
      rewrite (IH data (pre ++ h ++ p) tail)
        by (rewrite Hdata, <- !app_assoc; reflexivity).
      replace (length (pre ++ h ++ p)
               + length (concat (map pageBytes pages)))%nat
        with (length pre
              + length ((h ++ p) ++ concat (map pageBytes pages)))%nat
        by (rewrite !length_app; lia).
      reflexivity.
  - intros ->. subst o'. apply ParseNextPage_at_end. cbn [s i].
    rewrite Hdata, app_nil_r, length_app. lia.
Qed.

(** With 1 to 27 bytes left the header read comes back short, and the
    bytes it took are gone. *)
Lemma ParseNextPage_short_header (r : bytesReader) (c : Z) :
  (i r < length (s r) < i r + 28)%nat ->
  ParseNextPage {| stream := Some r; bytesReadSuccesfully := c |}
  = (Error ErrHeaderLenMismatch,
     {| stream := Some (mkBytesReader (s r) (length (s r)));
        bytesReadSuccesfully := c |}).
Proof.
  intros Hshort. rewrite ParseNextPage_parsePage. unfold parsePage.
  cbn [stream Read bytesReader_ReadSeeker]. unfold bytesReader_Read.
  replace (length (s r) <=? i r)%nat with false
    by (symmetry; apply Nat.leb_gt; lia).
  assert (Hn : length (firstn 28 (skipn (i r) (s r)))
               = (length (s r) - i r)%nat)
    by (rewrite length_firstn, length_skipn; lia).
  rewrite Hn.
  replace (length (s r) - i r <? 28)%nat with true
    by (symmetry; apply Nat.ltb_lt; lia).
  unfold set_stream. cbn [bytesReadSuccesfully].
  replace (i r + (length (s r) - i r))%nat with (length (s r)) by lia.
  reflexivity.
Qed.

(** X2. How a page read fails over a [bytes.Reader], and where it leaves
    the reading index: at the end of the source it fails with [io.EOF]
    and the reader is unchanged; with 1 to 27 bytes left it fails with
    "header len mismatch" after taking those bytes, so the index is at
    the end; with exactly a header left that declares a payload it fails
    with [io.EOF] after taking the 28 header bytes. Nothing is rolled
    back. *)
Theorem ParseNextPage_failures_leave_cursor (r : bytesReader) (c : Z) :
  let o := {| stream := Some r; bytesReadSuccesfully := c |} in
  ((length (s r) <= i r)%nat ->
   ParseNextPage o = (Error (ErrStream EOF), o)) /\
  ((i r < length (s r) < i r + 28)%nat ->
   ParseNextPage o
   = (Error ErrHeaderLenMismatch,
      {| stream := Some (mkBytesReader (s r) (length (s r)));
         bytesReadSuccesfully := c |})) /\
  ((length (s r) = i r + 28)%nat ->
   (0 < payloadSizeAt (headerBytesAt r))%nat ->
   ParseNextPage o
   = (Error (ErrStream EOF),
      {| stream := Some (mkBytesReader (s r) (i r + 28));
         bytesReadSuccesfully := c |})).
Proof.
  intros o. split; [apply ParseNextPage_at_end|]. subst o. split.
  - apply ParseNextPage_short_header.
  - intros Hlen Hsize. unfold headerBytesAt in Hsize.
    rewrite ParseNextPage_parsePage. unfold parsePage.
    cbn [stream Read bytesReader_ReadSeeker]. unfold bytesReader_Read.
    replace (length (s r) <=? i r)%nat with false
      by (symmetry; apply Nat.leb_gt; lia).
    assert (Hn : length (firstn 28 (skipn (i r) (s r))) = 28%nat)
      by (rewrite length_firstn, length_skipn; lia).
    rewrite Hn. change (28 <? 28)%nat with false. cbv iota.
    rewrite (@firstn_all2 _ 28 (firstn 28 _)) by lia.
    replace (0 <? payloadSizeAt (firstn 28 (skipn (i r) (s r))))%nat
      with true by (symmetry; apply Nat.ltb_lt; exact Hsize).
    cbn [s i].
    replace (length (s r) <=? i r + 28)%nat with true
      by (symmetry; apply Nat.leb_le; lia).
    reflexivity.
Qed.

Lemma framed_page_at (r : bytesReader) (pre h payload post : bytes) :
  s r = pre ++ h ++ payload ++ post ->
  i r = length pre ->
  frames h payload ->
  headerBytesAt r = h /\ payloadBytesAt r = payload /\ completePageAt r.
Proof.
  intros Hs Hi [Hh Hsize].
  assert (Hhdr : headerBytesAt r = h).
  { unfold headerBytesAt. rewrite Hs, Hi, <- Hh. apply firstn_skipn_middle. }
  split; [exact Hhdr|]. split.
  - unfold payloadBytesAt. rewrite Hhdr, Hsize, Hs, Hi.
    replace (length pre + 28)%nat with (length (pre ++ h))
      by (rewrite length_app; lia).
    rewrite (app_assoc pre h). apply firstn_skipn_middle.
  - unfold completePageAt. rewrite Hhdr, Hsize, Hi, Hs.
    rewrite !length_app. lia.
Qed.

Lemma headerOf_fields (h : bytes) :
  sig (headerOf h) = firstn 4 h /\
  headerType (headerOf h) = u8 (nth 5 h Init.Byte.x00).
Proof.
  unfold headerOf. destruct (0 <? payloadSizeAt h)%nat; split; reflexivity.
Qed.

(** The head of a well-formed stream, read by [readHeaders]: after the
    identification page the loop runs over the comment pages. *)
Lemma readHeaders_over_headers
  (pre idH idPayload : bytes) (comments : list (bytes * bytes))
  (tail data : bytes) (k : nat) (c : Z) :
  frames idH idPayload ->
  firstn 4 idH = pageHeaderSignature ->
  u8 (nth 5 idH Init.Byte.x00) = 0x02 ->
  firstn 8 idPayload = idPageSignature ->
  (19 <= length idPayload)%nat ->
  Forall commentPageLike comments ->
  data = pre ++ idH ++ idPayload ++ concat (map pageBytes comments) ++ tail ->
  readHeaders (length comments + k)
    {| stream := Some (mkBytesReader data (length pre));
       bytesReadSuccesfully := c |}
  = (_ <- skipCommentPages k ;; ret (oggHeaderAt idPayload))
      {| stream := Some (mkBytesReader data
                     (length pre + 28 + length idPayload
                      + length (concat (map pageBytes comments))));
         bytesReadSuccesfully := c |}.
Proof.
  intros Hframes Hsig Htype Hid Hlen Hcomments Hdata.
  destruct (headerOf_fields idH) as [Hsig' Htype'].
  rewrite (readHeaders_accepts_id_page _ _ _ idPayload (headerOf idH)
             (ParseNextPage_framed (mkBytesReader data (length pre)) c
                pre idH idPayload
                (concat (map pageBytes comments) ++ tail)
                Hdata eq_refl Hframes)
             (eq_trans Hsig' Hsig) (eq_trans Htype' Htype) Hid Hlen).
  cbn [s]. unfold bind.
  destruct Hframes as [Hh _].
  replace (length pre + 28 + length idPayload)%nat
    with (length (pre ++ idH ++ idPayload))
    by (rewrite !length_app; lia).
  rewrite (skipCommentPages_over_comments comments c k Hcomments data
             (pre ++ idH ++ idPayload) tail)
    by (rewrite Hdata, <- !app_assoc; reflexivity).
  reflexivity.
Qed.

(** X3. Construction over a well-formed stream: an identification page
    (signature "OggS", header type 0x02, a payload of at least 19 bytes
    that begins with "OpusHead"), any number of comment pages and then a
    page without "OpusTags". [NewWith] returns the header decoded from
    the identification payload and a reader whose index is at the start
    of that first audio page, so the first [ParseNextPage] of the caller
    returns it. The source may start anywhere ([pre]) and hold anything
    after the page ([post]). *)
Theorem NewWith_positions_at_first_audio_page
  (pre idH idPayload : bytes) (comments : list (bytes * bytes))
  (aH aPayload post data : bytes) (fuel : nat) :
  frames idH idPayload ->
  firstn 4 idH = pageHeaderSignature ->
  u8 (nth 5 idH Init.Byte.x00) = 0x02 ->
  firstn 8 idPayload = idPageSignature ->
  (19 <= length idPayload)%nat ->
  Forall commentPageLike comments ->
  frames aH aPayload ->
  Contains aPayload commentPageSignature = false ->
  (length comments < fuel)%nat ->
  data = pre ++ idH ++ idPayload ++ concat (map pageBytes comments)
         ++ aH ++ aPayload ++ post ->
  let audioAt := (length pre + 28 + length idPayload
                  + length (concat (map pageBytes comments)))%nat in
  let reader := {| stream := Some (mkBytesReader data audioAt);
                   bytesReadSuccesfully := 0 |} in
  NewWith (Some (mkBytesReader data (length pre))) fuel
  = Returns (Some reader) (Some (oggHeaderAt idPayload)) None /\
  ParseNextPage reader
  = (Val (aPayload, headerOf aH),
     {| stream := Some (mkBytesReader data (audioAt + 28 + length aPayload));
        bytesReadSuccesfully := 0 |}).
Proof.
  intros Hframes Hsig Htype Hid Hlen Hcomments Haudio Hnotags Hfuel Hdata
         audioAt reader.
  assert (Hat : data = (pre ++ idH ++ idPayload
                        ++ concat (map pageBytes comments))
                       ++ aH ++ aPayload ++ post)
    by (rewrite Hdata, <- !app_assoc; reflexivity).
  assert (Hidx : audioAt = length (pre ++ idH ++ idPayload
                                   ++ concat (map pageBytes comments))).
  { subst audioAt. destruct Hframes as [Hh _]. rewrite !length_app. lia. }
  split.
  - unfold NewWith.
    replace fuel with (length comments + S (fuel - length comments - 1))%nat
      by lia.
    rewrite (readHeaders_over_headers pre idH idPayload comments
               (aH ++ aPayload ++ post) data _ 0
               Hframes Hsig Htype Hid Hlen Hcomments Hdata).
    fold audioAt. unfold bind.
    destruct (framed_page_at (mkBytesReader data audioAt) _ aH aPayload post
                Hat Hidx Haudio) as (_ & Hpay & Hpage).
    rewrite (skipCommentPages_rewinds_complete_page _ _ 0 Hpage)
      by (rewrite Hpay; exact Hnotags).
    reflexivity.
  - subst reader.
    rewrite (ParseNextPage_framed (mkBytesReader data audioAt) 0 _
               aH aPayload post Hat Hidx Haudio).
    cbn [s]. rewrite <- Hidx. reflexivity.
Qed.

(** X4. A stream that ends after its header pages (identification page
    and comment pages, no page after them) cannot be opened: the loop
    that skips the comment pages reads on, meets the end of the source,
    and [NewWith] fails with [io.EOF]. *)
Theorem NewWith_fails_EOF_without_audio_page
  (pre idH idPayload : bytes) (comments : list (bytes * bytes))
  (data : bytes) (fuel : nat) :
  frames idH idPayload ->
  firstn 4 idH = pageHeaderSignature ->
  u8 (nth 5 idH Init.Byte.x00) = 0x02 ->
  firstn 8 idPayload = idPageSignature ->
  (19 <= length idPayload)%nat ->
  Forall commentPageLike comments ->
  (length comments < fuel)%nat ->
  data = pre ++ idH ++ idPayload ++ concat (map pageBytes comments) ->
  NewWith (Some (mkBytesReader data (length pre))) fuel
  = Returns None None (Some (ErrStream EOF)).
Proof.
  intros Hframes Hsig Htype Hid Hlen Hcomments Hfuel Hdata.
  unfold NewWith.
  replace fuel with (length comments + S (fuel - length comments - 1))%nat
    by lia.
  rewrite (readHeaders_over_headers pre idH idPayload comments
             [] data _ 0 Hframes Hsig Htype Hid Hlen Hcomments)
    by (rewrite Hdata, app_nil_r; reflexivity).
  unfold bind. rewrite skipCommentPages_S, ParseNextPage_at_end;
    [reflexivity|].
  cbn [s i]. destruct Hframes as [Hh _].
  rewrite Hdata, !length_app. lia.
Qed.

(** * Further properties: the checks of the first page *)

Section FirstPage.

Context {Src : Type} `{ReadSeeker Src}.

(** The identification payload is indexed up to byte 18: one that begins
    with "OpusHead" and is shorter than 19 bytes makes [readHeaders]
    panic. *)
Lemma readHeaders_short_id_header_panics
  (fuel : nat) (o o1 : OggReader Src) (payload : bytes) (ph : OggPageHeader) :
  ParseNextPage o = (Val (payload, ph), o1) ->
  sig ph = pageHeaderSignature ->
  headerType ph = 0x02 ->
  firstn 8 payload = idPageSignature ->
  (8 <= length payload < 19)%nat ->
  readHeaders fuel o = (Panic, o1).
Proof.
  intros Hparse Hsig Htype Hid Hlen.
  unfold readHeaders. unfold bind at 1.
  rewrite Hparse, Hsig, Htype.
  change (bytes_eqb pageHeaderSignature pageHeaderSignature) with true.
  change (2 =? pageHeaderTypeBeginningOfStream) with true.
  cbn [negb].
  replace (length payload =? 0)%nat with false
    by (symmetry; apply Nat.eqb_neq; lia).
  do 8 (destruct payload as [|? payload]; [simpl in Hlen; lia|]).
  cbn [firstn] in Hid.
  do 11 (destruct payload as [|? payload];
         [ repeat progress
             (cbn [byteAt nth_error slice Nat.leb Nat.add Nat.sub andb
                   length firstn skipn must];
              rewrite ?bind_ret, ?Uint16_le_value, ?Uint32_le_value,
                ?(proj2 (bytes_eqb_eq _ _) Hid));
           reflexivity |]).
  simpl in Hlen. lia.
Qed.

(** What [readHeaders] makes of the first page it has read, check by
    check in the order of the code. *)
Lemma readHeaders_first_page
  (fuel : nat) (o o1 : OggReader Src) (payload : bytes) (ph : OggPageHeader) :
  ParseNextPage o = (Val (payload, ph), o1) ->
  readHeaders fuel o
  = if negb (bytes_eqb (sig ph) pageHeaderSignature)
    then (Error ErrBadHeaderSignature, o1)
    else if negb (headerType ph =? 0x02)
    then (Error ErrWrongHeader, o1)
    else if (length payload =? 0)%nat
    then (Error ErrBadHeaderSize, o1)
    else if (length payload <? 8)%nat
    then (Panic, o1)
    else if negb (bytes_eqb (firstn 8 payload) idPageSignature)
    then (Error (ErrWrongSignature (firstn 8 payload)), o1)
    else if (length payload <? 19)%nat
    then (Panic, o1)
    else (_ <- skipCommentPages fuel ;; ret (oggHeaderAt payload)) o1.
Proof.
  intros Hparse.
  destruct (bytes_eqb (sig ph) pageHeaderSignature) eqn:Hsig; cbn [negb].
  2: { unfold readHeaders. unfold bind at 1. rewrite Hparse, Hsig.
       reflexivity. }
  destruct (headerType ph =? 2) eqn:Htype; cbn [negb].
  2: { unfold readHeaders. unfold bind at 1. rewrite Hparse, Hsig.
       change pageHeaderTypeBeginningOfStream with 2. rewrite Htype.
       reflexivity. }
  apply bytes_eqb_eq in Hsig. apply Z.eqb_eq in Htype.
  destruct (length payload =? 0)%nat eqn:Hzero.
  { unfold readHeaders. unfold bind at 1. rewrite Hparse, Hsig, Htype, Hzero.
    reflexivity. }
  apply Nat.eqb_neq in Hzero.
  destruct (length payload <? 8)%nat eqn:Hshort.
  { apply Nat.ltb_lt in Hshort.
    apply (readHeaders_short_payload_panics fuel o o1 payload ph);
      auto; lia. }
  apply Nat.ltb_ge in Hshort.
  destruct (bytes_eqb (firstn 8 payload) idPageSignature) eqn:Hid; cbn [negb].
  2: { apply (readHeaders_wrong_signature fuel o o1 payload ph); auto.
       intros Heq. apply bytes_eqb_eq in Heq. congruence. }
  apply bytes_eqb_eq in Hid.
  destruct (length payload <? 19)%nat eqn:Hlen.
  { apply Nat.ltb_lt in Hlen.
    apply (readHeaders_short_id_header_panics fuel o o1 payload ph);
      auto; lia. }
  apply Nat.ltb_ge in Hlen.
  now apply (readHeaders_accepts_id_page fuel o o1 payload ph).
Qed.

(** What a successful [readHeaders] has seen. *)
Lemma readHeaders_Val_inv
  (fuel : nat) (o o' : OggReader Src) (hd : OggHeader) :
  readHeaders fuel o = (Val hd, o') ->
  exists payload ph o1,
    ParseNextPage o = (Val (payload, ph), o1) /\
    sig ph = pageHeaderSignature /\
    headerType ph = 0x02 /\
    firstn 8 payload = idPageSignature /\
    (19 <= length payload)%nat /\
    hd = oggHeaderAt payload /\
    skipCommentPages fuel o1 = (Val tt, o').
Proof.
  intros Hrun.
  destruct (ParseNextPage o) as [[[payload ph]|e| |] o1] eqn:Hparse;
    try (unfold readHeaders in Hrun; unfold bind at 1 in Hrun;
         rewrite Hparse in Hrun; discriminate Hrun).
  rewrite (readHeaders_first_page fuel o o1 payload ph Hparse) in Hrun.
  destruct (bytes_eqb (sig ph) pageHeaderSignature) eqn:Hsig;
    cbn [negb] in Hrun; [|discriminate Hrun].
  destruct (headerType ph =? 2) eqn:Htype;
    cbn [negb] in Hrun; [|discriminate Hrun].
  destruct (length payload =? 0)%nat; [discriminate Hrun|].
  destruct (length payload <? 8)%nat; [discriminate Hrun|].
  destruct (bytes_eqb (firstn 8 payload) idPageSignature) eqn:Hid;
    cbn [negb] in Hrun; [|discriminate Hrun].
  destruct (length payload <? 19)%nat eqn:Hlen; [discriminate Hrun|].
  apply bytes_eqb_eq in Hsig, Hid. apply Z.eqb_eq in Htype.
  apply Nat.ltb_ge in Hlen.
  unfold bind in Hrun.
  destruct (skipCommentPages fuel o1) as [[[]|e| |] o2] eqn:Hskip;
    try discriminate Hrun.
  injection Hrun as <- <-.
  exists payload, ph, o1. repeat split; auto.
Qed.

(** A payload that [ParseNextPage] returns has at most 255 bytes. *)
Lemma ParseNextPage_payload_max
  (o o' : OggReader Src) (payload : bytes) (hdr : OggPageHeader) :
  ParseNextPage o = (Val (payload, hdr), o') -> (length payload <= 255)%nat.
Proof.
  intros Hparse.
  destruct (ParseNextPage_Val_inv _ _ _ _ Hparse)
    as (st0 & data & st1 & _ & _ & _ & Hcases).
  pose proof (u8_range (nth 27 (firstn 28 data) Init.Byte.x00)) as Hb.
  unfold payloadSizeAt in Hcases.
  destruct Hcases as [(_ & -> & _) | (_ & data' & st2 & _ & -> & _)].
  - simpl. lia.
  - rewrite length_copyInto, length_make. lia.
Qed.

(** X5. A reader is only ever returned for a stream that begins well:
    when [NewWith] returns a reader, the first page read from the source
    had the signature "OggS", the header type 0x02 and a payload of 19
    to 255 bytes beginning with "OpusHead"; the header returned is the
    one decoded from that payload, no error comes with it, the loop over
    the comment pages ended normally in the reader's state, and the
    reader has counted no byte. *)
Theorem NewWith_success_inv
  (st : Src) (fuel : nat) (reader : OggReader Src)
  (header : option OggHeader) (err : option error) :
  NewWith (Some st) fuel = Returns (Some reader) header err ->
  exists payload ph o1,
    ParseNextPage {| stream := Some st; bytesReadSuccesfully := 0 |}
      = (Val (payload, ph), o1) /\
    sig ph = pageHeaderSignature /\
    headerType ph = 0x02 /\
    firstn 8 payload = idPageSignature /\
    (19 <= length payload <= 255)%nat /\
    header = Some (oggHeaderAt payload) /\
    err = None /\
    skipCommentPages fuel o1 = (Val tt, reader) /\
    bytesReadSuccesfully reader = 0.
Proof.
  unfold NewWith. intros Hnew.
  set (o := {| stream := Some st; bytesReadSuccesfully := 0 |}) in *.
  pose proof (keeps_counter_readHeaders fuel o) as Hcount.
  destruct (readHeaders fuel o) as [[hd|e| |] o'] eqn:Hrun;
    try discriminate Hnew.
  injection Hnew as <- <- <-. cbn [snd] in Hcount.
  destruct (readHeaders_Val_inv fuel o o' hd Hrun)
    as (payload & ph & o1 & Hparse & Hsig & Htype & Hid & Hlen & -> & Hskip).
  pose proof (ParseNextPage_payload_max _ _ _ _ Hparse) as Hmax.
  exists payload, ph, o1. repeat split; auto; lia.
Qed.

(** X6. The format errors of construction, in the order of the checks:
    a first page with another signature than "OggS" gives "bad header
    signature", whatever its header type and payload; with the right
    signature and header type 0x02, an empty payload gives "bad header
    size", and a payload of 8 bytes or more that does not begin with
    "OpusHead" gives "wrong signature: " followed by those 8 bytes. No
    reader and no header come with the error. *)
Theorem NewWith_format_errors
  (st : Src) (fuel : nat) (payload : bytes) (ph : OggPageHeader)
  (o1 : OggReader Src) :
  ParseNextPage {| stream := Some st; bytesReadSuccesfully := 0 |}
    = (Val (payload, ph), o1) ->
  (sig ph <> pageHeaderSignature ->
   NewWith (Some st) fuel = Returns None None (Some ErrBadHeaderSignature)) /\
  (sig ph = pageHeaderSignature -> headerType ph = 0x02 -> payload = [] ->
   NewWith (Some st) fuel = Returns None None (Some ErrBadHeaderSize)) /\
  (sig ph = pageHeaderSignature -> headerType ph = 0x02 ->
   (8 <= length payload)%nat -> firstn 8 payload <> idPageSignature ->
   NewWith (Some st) fuel
   = Returns None None (Some (ErrWrongSignature (firstn 8 payload))) /\
   errorMessage (ErrWrongSignature (firstn 8 payload))
   = ("wrong signature: " ++ string_of_list_byte (firstn 8 payload))%string).
Proof.
  intros Hparse. unfold NewWith.
  rewrite (readHeaders_first_page fuel _ o1 payload ph Hparse).
  split; [|split].
  - intros Hsig.
    destruct (bytes_eqb (sig ph) pageHeaderSignature) eqn:Heq;
      [apply bytes_eqb_eq in Heq; contradiction | reflexivity].
  - intros Hsig Htype ->.
    rewrite (proj2 (bytes_eqb_eq _ _) Hsig), Htype. reflexivity.
  - intros Hsig Htype Hlen Hid. split; [|reflexivity].
    rewrite (proj2 (bytes_eqb_eq _ _) Hsig), Htype.
    change (negb true) with false. change (negb (2 =? 2)) with false.
    cbv iota.
    replace (length payload =? 0)%nat with false
      by (symmetry; apply Nat.eqb_neq; lia).
    replace (length payload <? 8)%nat with false
      by (symmetry; apply Nat.ltb_ge; lia).
    destruct (bytes_eqb (firstn 8 payload) idPageSignature) eqn:Heq;
      [apply bytes_eqb_eq in Heq; contradiction | reflexivity].
Qed.

(** X7. The identification payload is not checked for its length beyond
    being non-empty: a first page with the right signature and header
    type whose payload has 1 to 18 bytes (beginning with "OpusHead" if
    it has 8 or more) makes [NewWith] panic, at the slice expression
    [payload[:8]] or at an index up to [payload[18]]. *)
Theorem NewWith_panics_on_short_id_header
  (st : Src) (fuel : nat) (payload : bytes) (ph : OggPageHeader)
  (o1 : OggReader Src) :
  ParseNextPage {| stream := Some st; bytesReadSuccesfully := 0 |}
    = (Val (payload, ph), o1) ->
  sig ph = pageHeaderSignature ->
  headerType ph = 0x02 ->
  (0 < length payload < 19)%nat ->
  ((8 <= length payload)%nat -> firstn 8 payload = idPageSignature) ->
  NewWith (Some st) fuel = Panics.
Proof.
  intros Hparse Hsig Htype Hlen Hid. unfold NewWith.
  rewrite (readHeaders_first_page fuel _ o1 payload ph Hparse).
  rewrite (proj2 (bytes_eqb_eq _ _) Hsig), Htype.
  change (negb true) with false. change (negb (2 =? 2)) with false.
  cbv iota.
  replace (length payload =? 0)%nat with false
    by (symmetry; apply Nat.eqb_neq; lia).
  destruct (length payload <? 8)%nat eqn:Hshort; [reflexivity|].
  apply Nat.ltb_ge in Hshort.
  rewrite (proj2 (bytes_eqb_eq _ _) (Hid Hshort)).
  change (negb true) with false. cbv iota.
  replace (length payload <? 19)%nat with true
    by (symmetry; apply Nat.ltb_lt; lia).
  reflexivity.
Qed.

End FirstPage.

(** * Further properties: value ranges *)

Lemma le_value_bound (bs : bytes) (n : nat) :
  length bs = n -> 0 <= le_value bs < 256 ^ Z.of_nat n.
Proof. intros <-. apply le_value_range. Qed.

Lemma length_firstn_skipn {A} (l : list A) (j k : nat) :
  (j + k <= length l)%nat -> length (firstn k (skipn j l)) = k.
Proof. intros Hl. rewrite length_firstn, length_skipn. lia. Qed.

Section Ranges.

Context {Src : Type} `{ReadSeeker Src}.

(** X8. Every field of a page header that [ParseNextPage] returns fits
    the Go type of the field: the signature has 4 bytes; version, header
    type and segments count are below [2^8]; serial number, page index
    and checksum below [2^32]; the granule position below [2^64]; and the
    payload has at most 255 bytes. *)
Theorem ParseNextPage_fields_in_range
  (o o' : OggReader Src) (payload : bytes) (hdr : OggPageHeader) :
  ParseNextPage o = (Val (payload, hdr), o') ->
  length (sig hdr) = 4%nat /\
  0 <= version hdr < 2 ^ 8 /\
  0 <= headerType hdr < 2 ^ 8 /\
  0 <= granulePos hdr < 2 ^ 64 /\
  0 <= serial hdr < 2 ^ 32 /\
  0 <= index hdr < 2 ^ 32 /\
  0 <= segmentsCount hdr < 2 ^ 8 /\
  0 <= checksum hdr < 2 ^ 32 /\
  (length payload <= 255)%nat.
Proof.
  intros Hparse.
  pose proof (ParseNextPage_payload_max _ _ _ _ Hparse) as Hmax.
  destruct (ParseNextPage_Val_inv _ _ _ _ Hparse)
    as (st & data & st1 & _ & _ & Hdata & Hcases).
  set (h := firstn 28 data) in *.
  assert (Hh : length h = 28%nat)
    by (subst h; rewrite length_firstn; lia).
  pose proof (u8_range (nth 4 h Init.Byte.x00)) as Hversion.
  pose proof (u8_range (nth 5 h Init.Byte.x00)) as Htype.
  pose proof (u8_range (nth 26 h Init.Byte.x00)) as Hsegments.
  pose proof (le_value_bound (firstn 8 (skipn 6 h)) 8
                (length_firstn_skipn h 6 8 ltac:(lia))) as Hgranule.
  pose proof (le_value_bound (firstn 4 (skipn 14 h)) 4
                (length_firstn_skipn h 14 4 ltac:(lia))) as Hserial.
  pose proof (le_value_bound (firstn 4 (skipn 18 h)) 4
                (length_firstn_skipn h 18 4 ltac:(lia))) as Hindex.
  pose proof (le_value_bound (firstn 4 (skipn 22 h)) 4
                (length_firstn_skipn h 22 4 ltac:(lia))) as Hcrc.
  change (256 ^ Z.of_nat 8) with (2 ^ 64) in Hgranule.
  change (256 ^ Z.of_nat 4) with (2 ^ 32) in Hserial, Hindex, Hcrc.
  change (2 ^ 8) with 256.
  assert (Hsig : length (firstn 4 h) = 4%nat)
    by (rewrite length_firstn; lia).
  destruct Hcases as [(_ & _ & -> & _) | (_ & data' & st2 & _ & _ & -> & _)];
    cbn [set_checksum pageHeaderAt sig version headerType granulePos serial
         index segmentsCount checksum]; fold h; unfold checksumAt;
    repeat (split; [assumption || lia|]); try exact Hmax.
  all: repeat split; try assumption; try lia; apply Z.pow_pos_nonneg; lia.
Qed.

(** X9. Every field of the header that [NewWith] returns fits the Go
    type of the field: version, channel count and channel mapping
    family are below [2^8], pre-skip and output gain below [2^16], the
    sample rate below [2^32]. *)
Theorem NewWith_header_in_range
  (in_ : option Src) (fuel : nat) (reader : option (OggReader Src))
  (hd : OggHeader) (err : option error) :
  NewWith in_ fuel = Returns reader (Some hd) err ->
  0 <= Version hd < 2 ^ 8 /\
  0 <= Channels hd < 2 ^ 8 /\
  0 <= PreSkip hd < 2 ^ 16 /\
  0 <= SampleRate hd < 2 ^ 32 /\
  0 <= OutputGain hd < 2 ^ 16 /\
  0 <= ChannelMap hd < 2 ^ 8.
Proof.
  unfold NewWith. destruct in_ as [st|]; [|discriminate].
  destruct (readHeaders fuel _) as [[hd'|e| |] o'] eqn:Hrun;
    try discriminate.
  intros [= _ ->].
  destruct (readHeaders_Val_inv fuel _ o' hd Hrun)
    as (payload & ph & o1 & _ & _ & _ & _ & Hlen & -> & _).
  pose proof (u8_range (nth 8 payload Init.Byte.x00)) as Hversion.
  pose proof (u8_range (nth 9 payload Init.Byte.x00)) as Hchannels.
  pose proof (u8_range (nth 18 payload Init.Byte.x00)) as Hmap.
  pose proof (le_value_bound (firstn 2 (skipn 10 payload)) 2
                (length_firstn_skipn payload 10 2 ltac:(lia))) as Hpreskip.
  pose proof (le_value_bound (firstn 4 (skipn 12 payload)) 4
                (length_firstn_skipn payload 12 4 ltac:(lia))) as Hrate.
  pose proof (le_value_bound (firstn 2 (skipn 16 payload)) 2
                (length_firstn_skipn payload 16 2 ltac:(lia))) as Hgain.
  change (256 ^ Z.of_nat 2) with (2 ^ 16) in Hpreskip, Hgain.
  change (256 ^ Z.of_nat 4) with (2 ^ 32) in Hrate.
  change (2 ^ 8) with 256.
  cbn [oggHeaderAt Version Channels PreSkip SampleRate OutputGain ChannelMap].
  repeat split; lia.
Qed.

End Ranges.

(** * Further properties: the cursor *)

(** X10. The loop of [readHeaders] takes a page for a comment page
    exactly when "OpusTags" occurs anywhere in its payload, not only at
    its start: such a page is read over and the loop goes on behind it;
    any other page ends the loop, with the reader exactly as it was
    before the page was read. *)
Theorem skipCommentPages_takes_tags_anywhere
  (r : bytesReader) (c : Z) (pre h payload post : bytes) (fuel : nat) :
  s r = pre ++ h ++ payload ++ post ->
  i r = length pre ->
  frames h payload ->
  let o := {| stream := Some r; bytesReadSuccesfully := c |} in
  ((exists a b, payload = a ++ commentPageSignature ++ b) ->
   skipCommentPages (S fuel) o
   = skipCommentPages fuel
       {| stream := Some (mkBytesReader (s r)
                            (length pre + 28 + length payload));
          bytesReadSuccesfully := c |}) /\
  ((~ exists a b, payload = a ++ commentPageSignature ++ b) ->
   skipCommentPages (S fuel) o = (Val tt, o)).
Proof.
  intros Hs Hi Hframes o. subst o. split.
  - intros Htags. apply Contains_iff in Htags.
    rewrite skipCommentPages_S.
    rewrite (ParseNextPage_framed r c pre h payload post Hs Hi Hframes).
    rewrite Htags. reflexivity.
  - intros Hnone.
    destruct (framed_page_at r pre h payload post Hs Hi Hframes)
      as (_ & Hpay & Hpage).
    apply skipCommentPages_rewinds_complete_page; [exact Hpage|].
    rewrite Hpay.
    destruct (Contains payload commentPageSignature) eqn:Htags;
      [|reflexivity].
    apply Contains_iff in Htags. contradiction.
Qed.

(** X11. Whatever its outcome, a page read over a [bytes.Reader] keeps
    the byte slice and the counter, never moves the reading index back,
    never moves it past the end of the slice (unless it was there
    already), and never takes more than a header and 255 payload
    bytes. *)
Theorem ParseNextPage_only_moves_forward (r : bytesReader) (c : Z) :
  exists r',
    snd (ParseNextPage {| stream := Some r; bytesReadSuccesfully := c |})
    = {| stream := Some r'; bytesReadSuccesfully := c |} /\
    s r' = s r /\
    (i r <= i r')%nat /\
    (i r' <= Nat.max (i r) (length (s r)))%nat /\
    (i r' <= i r + 28 + 255)%nat.
Proof.
  rewrite ParseNextPage_parsePage. unfold parsePage.
  cbn [stream Read bytesReader_ReadSeeker]. unfold bytesReader_Read.
  destruct (length (s r) <=? i r)%nat eqn:Hend.
  { exists r. repeat split; lia. }
  apply Nat.leb_gt in Hend.
  set (data := firstn 28 (skipn (i r) (s r))).
  assert (Hdata : (length data <= 28 /\ length data <= length (s r) - i r)%nat)
    by (subst data; rewrite length_firstn, length_skipn; lia).
  destruct (length data <? 28)%nat.
  { eexists. split; [reflexivity|]. cbn [s i]. repeat split; lia. }
  pose proof (u8_range (nth 27 (firstn 28 data) Init.Byte.x00)) as Hsize.
  unfold payloadSizeAt.
  set (size := Z.to_nat (u8 (nth 27 (firstn 28 data) Init.Byte.x00))).
  assert (Hmax : (size <= 255)%nat) by (subst size; lia).
  destruct (0 <? size)%nat.
  2: { eexists. split; [reflexivity|]. cbn [s i]. repeat split; lia. }
  cbn [s i].
  destruct (length (s r) <=? i r + length data)%nat.
  { eexists. split; [reflexivity|]. cbn [s i]. repeat split; lia. }
  set (data' := firstn size (skipn (i r + length data) (s r))).
  assert (Hdata' : (length data' <= size /\
                    length data' <= length (s r) - (i r + length data))%nat)
    by (subst data'; rewrite length_firstn, length_skipn; lia).
  eexists. split; [reflexivity|]. cbn [s i]. repeat split; lia.
Qed.


(** X13. A page cut short by the end of the source (the header and some,
    but not all, of the declared payload bytes are there) is read
    without an error: the payload returned is the bytes that were there
    followed by zeros up to the declared size, and the index is at the
    end of the source. If no "OpusTags" is in that payload, the loop of
    [readHeaders] then seeks back by 28 plus the declared size, from the
    end of the source: to an index before the page's start, or, if that
    index would be negative, not at all, and it fails with the error of
    [Seek]. *)
Theorem truncated_page_read_and_rewind
  (r : bytesReader) (c : Z) (fuel : nat) :
  (i r + 28 < length (s r))%nat ->
  (length (s r) < i r + 28 + payloadSizeAt (headerBytesAt r))%nat ->
  let size := payloadSizeAt (headerBytesAt r) in
  let padded := skipn (i r + 28) (s r)
                ++ make (i r + 28 + size - length (s r)) in
  let o := {| stream := Some r; bytesReadSuccesfully := c |} in
  let atEnd := {| stream := Some (mkBytesReader (s r) (length (s r)));
                  bytesReadSuccesfully := c |} in
  ParseNextPage o = (Val (padded, headerOf (headerBytesAt r)), atEnd) /\
  length padded = size /\
  (Contains padded commentPageSignature = false ->
   ((28 + size <= length (s r))%nat ->
    skipCommentPages (S fuel) o
    = (Val tt, {| stream := Some (mkBytesReader (s r)
                                    (length (s r) - (28 + size)));
                  bytesReadSuccesfully := c |}) /\
    (length (s r) - (28 + size) < i r)%nat) /\
   ((length (s r) < 28 + size)%nat ->
    skipCommentPages (S fuel) o
    = (Error (ErrStream
                (SourceError "bytes.Reader.Seek: negative position")),
       atEnd))).
Proof.
  intros Hheader Hshort size padded o atEnd.
  assert (Hparse : ParseNextPage o
                   = (Val (padded, headerOf (headerBytesAt r)), atEnd)).
  { subst o atEnd padded size.
    rewrite (ParseNextPage_truncated_payload r c Hheader Hshort).
    unfold headerOf.
    replace (0 <? payloadSizeAt (headerBytesAt r))%nat with true
      by (symmetry; apply Nat.ltb_lt; lia).
    reflexivity. }
  assert (Hlen : length padded = size).
  { subst padded. rewrite length_app, length_skipn, length_make.
    subst size. lia. }
  split; [exact Hparse|]. split; [exact Hlen|].
  intros Htags.
  assert (Hstep : forall abs : Z,
            abs = Z.of_nat (length (s r)) - Z.of_nat (28 + size) ->
            skipCommentPages (S fuel) o
            = if abs <? 0
              then (Error (ErrStream
                      (SourceError "bytes.Reader.Seek: negative position")),
                    atEnd)
              else (Val tt,
                    {| stream := Some (mkBytesReader (s r) (Z.to_nat abs));
                       bytesReadSuccesfully := c |})).
  { intros abs Habs.
    rewrite skipCommentPages_S, Hparse, Htags, Hlen. cbn [negb].
    unfold bind, streamSeek. subst atEnd.
    cbn [stream Seek bytesReader_ReadSeeker]. unfold bytesReader_Seek.
    cbn [s i]. change pageHeaderLen with 28%nat.
    replace (Z.of_nat (length (s r)) + -1 * Z.of_nat (28 + size))
      with abs by lia.
    destruct (abs <? 0); reflexivity. }
  split.
  - intros Hroom.
    rewrite (Hstep _ eq_refl).
    replace (Z.of_nat (length (s r)) - Z.of_nat (28 + size) <? 0)
      with false by (symmetry; apply Z.ltb_ge; lia).
    split; [|lia].
    replace (Z.to_nat (Z.of_nat (length (s r)) - Z.of_nat (28 + size)))
      with (length (s r) - (28 + size))%nat by lia.
    reflexivity.
  - intros Hneg.
    rewrite (Hstep _ eq_refl).
    replace (Z.of_nat (length (s r)) - Z.of_nat (28 + size) <? 0)
      with true by (symmetry; apply Z.ltb_lt; lia).
    reflexivity.
Qed.

(** X14. Construction over a source that has no whole page header left:
    at the end of the source (an empty source, say) [NewWith] fails with
    [io.EOF]; with 1 to 27 bytes left it fails with "header len
    mismatch". *)
Theorem NewWith_fails_on_short_source (r : bytesReader) (fuel : nat) :
  ((length (s r) <= i r)%nat ->
   NewWith (Some r) fuel = Returns None None (Some (ErrStream EOF))) /\
  ((i r < length (s r) < i r + 28)%nat ->
   NewWith (Some r) fuel = Returns None None (Some ErrHeaderLenMismatch)).
Proof.
  unfold NewWith, readHeaders. split; intros Hlen; unfold bind at 1.
  - now rewrite (ParseNextPage_at_end r 0 Hlen).
  - now rewrite (ParseNextPage_short_header r 0 Hlen).
Qed.

(** * The further properties at concrete streams *)

Section MoreConcrete.

Import Vectors.
Import Streams.
Import Init.Byte.

(** X1 at a stream of two audio pages. *)
Lemma ParseNextPages_reads_pages_in_order_witness :
  let pages := [(header x00 x03, audio1); (header x00 x02, audio2)] in
  let data := concat (map pageBytes pages) in
  Forall (fun p => frames (fst p) (snd p)) pages /\
  ParseNextPages 2 (readerOf (NewReader data))
  = (Val [(audio1, headerOf (header x00 x03));
          (audio2, headerOf (header x00 x02))],
     readerOf (mkBytesReader data 61)) /\
  ParseNextPage (readerOf (mkBytesReader data 61))
  = (Error (ErrStream EOF), readerOf (mkBytesReader data 61)).
Proof.
  intros pages data.
  assert (Hall : Forall (fun p => frames (fst p) (snd p)) pages)
    by (repeat constructor).
  split; [exact Hall|].
  destruct (ParseNextPages_reads_pages_in_order pages 0 Hall data [] []
              eq_refl) as [Hread Hend].
  split; [exact Hread | exact (Hend eq_refl)].
Defined.

(** X2 at a source of 10 bytes and at a source that ends after a header
    declaring 4 payload bytes. *)
Lemma ParseNextPage_failures_leave_cursor_witness :
  ((i stubStream < length (s stubStream) < i stubStream + 28)%nat /\
   ParseNextPage (readerOf stubStream)
   = (Error ErrHeaderLenMismatch,
      readerOf (mkBytesReader (s stubStream) 10))) /\
  (length (s headerOnlyStream) = (i headerOnlyStream + 28)%nat /\
   (0 < payloadSizeAt (headerBytesAt headerOnlyStream))%nat /\
   ParseNextPage (readerOf headerOnlyStream)
   = (Error (ErrStream EOF),
      readerOf (mkBytesReader (s headerOnlyStream) 28))).
Proof.
  assert (H1 : (i stubStream < length (s stubStream) < i stubStream + 28)%nat)
    by (simpl; lia).
  assert (H2 : length (s headerOnlyStream) = (i headerOnlyStream + 28)%nat)
    by reflexivity.
  assert (H3 : (0 < payloadSizeAt (headerBytesAt headerOnlyStream))%nat)
    by (apply Nat.ltb_lt; reflexivity).
  split.
  - split; [exact H1|].
    exact (proj1 (proj2 (ParseNextPage_failures_leave_cursor stubStream 0))
             H1).
  - split; [exact H2|]. split; [exact H3|].
    exact (proj2 (proj2 (ParseNextPage_failures_leave_cursor
                           headerOnlyStream 0)) H2 H3).
Defined.

(** X3 at a stream of an identification page, two comment pages (the
    second with "OpusTags" after two other bytes) and two audio pages. *)
Lemma NewWith_positions_at_first_audio_page_witness :
  let comments := [(header x00 x08, commentPageSignature);
                   (header x00 x0b, lateTagsPayload)] in
  frames (header x02 x13) idPayload /\
  Forall commentPageLike comments /\
  frames (header x00 x03) audio1 /\
  Contains audio1 commentPageSignature = false /\
  NewWith (Some (NewReader fullStream)) 3
  = Returns (Some (readerOf (mkBytesReader fullStream 122)))
            (Some (oggHeaderAt idPayload)) None /\
  ParseNextPage (readerOf (mkBytesReader fullStream 122))
  = (Val (audio1, headerOf (header x00 x03)),
     readerOf (mkBytesReader fullStream 153)).
Proof.
  intros comments.
  assert (Hid : frames (header x02 x13) idPayload) by (split; reflexivity).
  assert (Hcomments : Forall commentPageLike comments)
    by (repeat constructor).
  assert (Haudio : frames (header x00 x03) audio1) by (split; reflexivity).
  assert (Hnotags : Contains audio1 commentPageSignature = false)
    by reflexivity.
  assert (Hlen : (19 <= length idPayload)%nat)
    by (apply Nat.leb_le; reflexivity).
  assert (Hfuel : (length comments < 3)%nat)
    by (apply Nat.ltb_lt; reflexivity).
  do 4 (split; [assumption|]).
  exact (NewWith_positions_at_first_audio_page [] (header x02 x13) idPayload
           comments (header x00 x03) audio1 (header x00 x02 ++ audio2)
           fullStream 3 Hid eq_refl eq_refl eq_refl Hlen Hcomments Haudio
           Hnotags Hfuel eq_refl).
Defined.

(** X4 at a stream of an identification page and one comment page. *)
Lemma NewWith_fails_EOF_without_audio_page_witness :
  let comments := [(header x00 x08, commentPageSignature)] in
  frames (header x02 x13) idPayload /\
  Forall commentPageLike comments /\
  NewWith (Some (NewReader headersOnlyStream)) 2
  = Returns None None (Some (ErrStream EOF)).
Proof.
  intros comments.
  assert (Hid : frames (header x02 x13) idPayload) by (split; reflexivity).
  assert (Hcomments : Forall commentPageLike comments)
    by (repeat constructor).
  assert (Hlen : (19 <= length idPayload)%nat)
    by (apply Nat.leb_le; reflexivity).
  assert (Hfuel : (length comments < 2)%nat)
    by (apply Nat.ltb_lt; reflexivity).
  do 2 (split; [assumption|]).
  exact (NewWith_fails_EOF_without_audio_page [] (header x02 x13) idPayload
           comments headersOnlyStream 2 Hid eq_refl eq_refl eq_refl Hlen
           Hcomments Hfuel eq_refl).
Defined.

(** X5 at the well-formed stream. *)
Lemma NewWith_success_inv_witness :
  let reader := readerOf (mkBytesReader (s goodStream) 83) in
  NewWith (Some goodStream) 2
  = Returns (Some reader) (Some (oggHeaderAt idPayload)) None /\
  exists payload ph o1,
    ParseNextPage (readerOf goodStream) = (Val (payload, ph), o1) /\
    firstn 8 payload = idPageSignature /\
    (19 <= length payload <= 255)%nat /\
    skipCommentPages 2 o1 = (Val tt, reader).
Proof.
  intros reader.
  assert (Hnew : NewWith (Some goodStream) 2
                 = Returns (Some reader) (Some (oggHeaderAt idPayload)) None)
    by (vm_compute; reflexivity).
  split; [exact Hnew|].
  destruct (NewWith_success_inv goodStream 2 reader _ _ Hnew)
    as (payload & ph & o1 & Hparse & _ & _ & Hid & Hlen & _ & _ & Hskip & _).
  exists payload, ph, o1. auto.
Defined.

(** X6 at first pages with a bad capture pattern, without payload, and
    with a payload that is not an identification header. *)
Lemma NewWith_format_errors_witness :
  NewWith (Some badSignatureStream) 1
    = Returns None None (Some ErrBadHeaderSignature) /\
  NewWith (Some emptyIdStream) 1
    = Returns None None (Some ErrBadHeaderSize) /\
  NewWith (Some wrongIdStream) 1
    = Returns None None (Some (ErrWrongSignature commentPageSignature)).
Proof.
  split; [|split].
  - assert (Hparse :
      ParseNextPage (readerOf badSignatureStream)
      = (Val (idPayload, headerOf (firstn 28 (s badSignatureStream))),
         readerOf (mkBytesReader (s badSignatureStream) 47)))
      by (vm_compute; reflexivity).
    apply (proj1 (NewWith_format_errors badSignatureStream 1 _ _ _ Hparse)).
    discriminate.
  - assert (Hparse :
      ParseNextPage (readerOf emptyIdStream)
      = (Val ([], headerOf (s emptyIdStream)),
         readerOf (mkBytesReader (s emptyIdStream) 28)))
      by (vm_compute; reflexivity).
    apply (proj1 (proj2 (NewWith_format_errors emptyIdStream 1 _ _ _ Hparse)));
      reflexivity.
  - assert (Hparse :
      ParseNextPage (readerOf wrongIdStream)
      = (Val (commentPageSignature, headerOf (header x02 x08)),
         readerOf (mkBytesReader (s wrongIdStream) 36)))
      by (vm_compute; reflexivity).
    apply (proj2 (proj2 (NewWith_format_errors wrongIdStream 1 _ _ _ Hparse)));
      [reflexivity | reflexivity | apply Nat.leb_le; reflexivity
      | discriminate].
Defined.

(** X7 at a first page whose payload is "OpusHead" and nothing more. *)
Lemma NewWith_panics_on_short_id_header_witness :
  ParseNextPage (readerOf bareIdStream)
  = (Val (idPageSignature, headerOf (header x02 x08)),
     readerOf (mkBytesReader (s bareIdStream) 36)) /\
  (0 < length idPageSignature < 19)%nat /\
  NewWith (Some bareIdStream) 1 = Panics.
Proof.
  assert (Hparse :
    ParseNextPage (readerOf bareIdStream)
    = (Val (idPageSignature, headerOf (header x02 x08)),
       readerOf (mkBytesReader (s bareIdStream) 36)))
    by (vm_compute; reflexivity).
  assert (Hlen : (0 < length idPageSignature < 19)%nat) by (simpl; lia).
  split; [exact Hparse|]. split; [exact Hlen|].
  exact (NewWith_panics_on_short_id_header bareIdStream 1 _ _ _ Hparse
           eq_refl eq_refl Hlen (fun _ => eq_refl)).
Defined.

(** X8 at the first page of the well-formed stream. *)
Lemma ParseNextPage_fields_in_range_witness :
  let ph := headerOf (header x02 x13) in
  ParseNextPage (readerOf goodStream)
  = (Val (idPayload, ph), readerOf (mkBytesReader (s goodStream) 47)) /\
  0 <= checksum ph < 2 ^ 32 /\
  (length idPayload <= 255)%nat.
Proof.
  intros ph.
  assert (Hparse :
    ParseNextPage (readerOf goodStream)
    = (Val (idPayload, ph), readerOf (mkBytesReader (s goodStream) 47)))
    by (vm_compute; reflexivity).
  split; [exact Hparse|].
  destruct (ParseNextPage_fields_in_range _ _ _ _ Hparse)
    as (_ & _ & _ & _ & _ & _ & _ & Hcrc & Hmax).
  split; [exact Hcrc | exact Hmax].
Defined.

(** X9 at the well-formed stream. *)
Lemma NewWith_header_in_range_witness :
  NewWith (Some goodStream) 2
  = Returns (Some (readerOf (mkBytesReader (s goodStream) 83)))
            (Some (oggHeaderAt idPayload)) None /\
  0 <= SampleRate (oggHeaderAt idPayload) < 2 ^ 32.
Proof.
  assert (Hnew :
    NewWith (Some goodStream) 2
    = Returns (Some (readerOf (mkBytesReader (s goodStream) 83)))
              (Some (oggHeaderAt idPayload)) None)
    by (vm_compute; reflexivity).
  split; [exact Hnew|].
  destruct (NewWith_header_in_range _ _ _ _ _ Hnew)
    as (_ & _ & _ & Hrate & _).
  exact Hrate.
Defined.

(** X10 at a page whose payload has "OpusTags" after two other bytes. *)
Lemma skipCommentPages_takes_tags_anywhere_witness :
  let r := NewReader (header x00 x0b ++ lateTagsPayload ++ []) in
  frames (header x00 x0b) lateTagsPayload /\
  (exists a b, lateTagsPayload = a ++ commentPageSignature ++ b) /\
  skipCommentPages 1 (readerOf r)
  = skipCommentPages 0 (readerOf (mkBytesReader (s r) 39)).
Proof.
  intros r.
  assert (Hframes : frames (header x00 x0b) lateTagsPayload)
    by (split; reflexivity).
  assert (Htags : exists a b, lateTagsPayload = a ++ commentPageSignature ++ b)
    by (exists [x01; x02], [x03]; reflexivity).
  split; [exact Hframes|]. split; [exact Htags|].
  exact (proj1 (skipCommentPages_takes_tags_anywhere r 0 []
                  (header x00 x0b) lateTagsPayload [] 0
                  eq_refl eq_refl Hframes) Htags).
Defined.


(** X13 at a page that declares 4 payload bytes and holds 1: behind an
    identification page the rewind lands at index 44, before the page's
    start at 47; at the start of the source the rewind fails. *)
Lemma truncated_page_read_and_rewind_witness :
  let r := mkBytesReader (s truncatedSecondStream) 47 in
  ((i r + 28 < length (s r))%nat /\
   (length (s r) < i r + 28 + payloadSizeAt (headerBytesAt r))%nat /\
   skipCommentPages 1 (readerOf r)
   = (Val tt, readerOf (mkBytesReader (s r) 44))) /\
  ((i truncatedStream + 28 < length (s truncatedStream))%nat /\
   skipCommentPages 1 (readerOf truncatedStream)
   = (Error (ErrStream (SourceError "bytes.Reader.Seek: negative position")),
      readerOf (mkBytesReader (s truncatedStream) 29))).
Proof.
  intros r.
  assert (H1 : (i r + 28 < length (s r))%nat)
    by (apply Nat.ltb_lt; reflexivity).
  assert (H2 : (length (s r) < i r + 28 + payloadSizeAt (headerBytesAt r))%nat)
    by (apply Nat.ltb_lt; reflexivity).
  assert (H3 : (i truncatedStream + 28 < length (s truncatedStream))%nat)
    by (apply Nat.ltb_lt; reflexivity).
  assert (H4 : (length (s truncatedStream)
                < i truncatedStream + 28
                  + payloadSizeAt (headerBytesAt truncatedStream))%nat)
    by (apply Nat.ltb_lt; reflexivity).
  split.
  - split; [exact H1|]. split; [exact H2|].
    destruct (truncated_page_read_and_rewind r 0 0 H1 H2)
      as (_ & _ & Hrewind).
    exact (proj1 (proj1 (Hrewind eq_refl)
                    ltac:(apply Nat.leb_le; reflexivity))).
  - split; [exact H3|].
    destruct (truncated_page_read_and_rewind truncatedStream 0 0 H3 H4)
      as (_ & _ & Hrewind).
    exact (proj2 (Hrewind eq_refl) ltac:(apply Nat.ltb_lt; reflexivity)).
Defined.

(** X14 at the empty source and at a source of 10 bytes. *)
Lemma NewWith_fails_on_short_source_witness :
  ((length (s (NewReader [])) <= i (NewReader []))%nat /\
   NewWith (Some (NewReader [])) 1
   = Returns None None (Some (ErrStream EOF))) /\
  ((i stubStream < length (s stubStream) < i stubStream + 28)%nat /\
   NewWith (Some stubStream) 1
   = Returns None None (Some ErrHeaderLenMismatch)).
Proof.
  assert (H1 : (length (s (NewReader [])) <= i (NewReader []))%nat)
    by (simpl; lia).
  assert (H2 : (i stubStream < length (s stubStream) < i stubStream + 28)%nat)
    by (simpl; lia).
  split.
  - split; [exact H1|].
    exact (proj1 (NewWith_fails_on_short_source (NewReader []) 1) H1).
  - split; [exact H2|].
    exact (proj2 (NewWith_fails_on_short_source stubStream 1) H2).
Defined.

End MoreConcrete.
